(** * Loot tables: weighted rolling, value ranges and the function pipeline

    A shallow embedding of package [loot] (table model, [RollValue],
    [rollEntry], the enchantment and potion registries and the helpers
    that apply functions to a stack), with the properties of its
    specification stated and proved over it. *)

From Stdlib Require Import ZArith List String Ascii Bool Lia.
Import ListNotations.
Local Open Scope string_scope.
Local Open Scope list_scope.
Local Open Scope Z_scope.

(* ===================================================================== *)
(** ** Go's [int]                                                         *)
(* ===================================================================== *)

(** [int] is a 64-bit two's complement integer.  It is carried as a [Z];
    every addition and subtraction of the source is followed by [wrap]. *)
Module GoInt.

Definition maxInt : Z := 9223372036854775807.
Definition minInt : Z := -9223372036854775808.

Definition wrap (z : Z) : Z := (z + 9223372036854775808) mod 18446744073709551616 - 9223372036854775808.

Definition inRange (z : Z) : Prop := minInt <= z <= maxInt.

End GoInt.
Import GoInt.

(* ===================================================================== *)
(** ** The shared random source and the effect monad                      *)
(* ===================================================================== *)

(** The process-wide generator of [math/rand].  [raw] is the sequence of
    numbers the generator will hand out, [pos] the number of draws already
    made.  [asked] is ghost state: the bounds passed to [rand.Intn] so far,
    oldest first, which records in what order the program drew. *)
Record Source : Type := mkSource {
  raw : nat -> Z;
  pos : nat;
  asked : list Z
}.

(** A computation reads and advances the source, or panics ([None]). *)
Definition M (A : Type) : Type := Source -> option (A * Source).

Definition ret {A} (a : A) : M A := fun g => Some (a, g).

Definition bind {A B} (m : M A) (k : A -> M B) : M B :=
  fun g => match m g with
           | Some (a, g') => k a g'
           | None => None
           end.

Definition panic {A} : M A := fun _ => None.

Notation "x <- m ;; k" := (bind m (fun x => k))
  (at level 61, m at next level, right associativity).

(** [rand.Intn(n)]: a number in [[0, n)]; it panics when [n <= 0]. *)
Definition Intn (n : Z) : M Z :=
  fun g => if n <=? 0 then None
           else Some (raw g (pos g) mod n,
                      mkSource (raw g) (S (pos g)) (asked g ++ [n])).

(* ===================================================================== *)
(** ** Data model                                                         *)
(* ===================================================================== *)

Record Value : Type := mkValue { Min : Z; Max : Z }.

Record EnchantConfig : Type := mkEnchantConfig {
  ec_ID : string;
  ec_Level : Value
}.

Record Function : Type := mkFunction {
  fn_Function : string;
  fn_Count : Value;
  fn_Levels : Value;
  fn_ID : string;
  fn_Enchants : list EnchantConfig
}.

Record Entry : Type := mkEntry {
  Type_ : string;
  Name : string;
  Weight : Z;
  Functions : list Function
}.

Record Pool : Type := mkPool {
  Rolls : Value;
  Entries : list Entry
}.

Record LootTable : Type := mkLootTable { Pools : list Pool }.

(** The zero value of [Value], as a freshly declared variable holds it. *)
Definition zeroValue : Value := mkValue 0 0.

(* ===================================================================== *)
(** ** Strings                                                            *)
(* ===================================================================== *)

(** [strings.TrimPrefix(s, prefix)]: [s] without the leading [prefix], or
    [s] itself when it does not start with [prefix]. *)
Fixpoint stripPrefix (prefix s : string) : option string :=
  match prefix with
  | EmptyString => Some s
  | String a prefix' =>
      match s with
      | EmptyString => None
      | String b s' => if Ascii.eqb a b then stripPrefix prefix' s' else None
      end
  end.

Definition TrimPrefix (s prefix : string) : string :=
  match stripPrefix prefix s with
  | Some rest => rest
  | None => s
  end.

Definition HasPrefix (s prefix : string) : bool :=
  match stripPrefix prefix s with Some _ => true | None => false end.

(** [strings.ToLower] on byte strings: the letters 'A'..'Z' become
    'a'..'z', every other byte is kept.  (Identifiers are ASCII text; on
    such text this is what Go computes.) *)
Definition lowerByte (c : ascii) : ascii :=
  let n := nat_of_ascii c in
  if (Nat.leb 65 n && Nat.leb n 90)%bool then ascii_of_nat (n + 32) else c.

Fixpoint ToLower (s : string) : string :=
  match s with
  | EmptyString => EmptyString
  | String c s' => String (lowerByte c) (ToLower s')
  end.

(** Two strings that differ at most in the case of their letters. *)
Inductive caseVariant : string -> string -> Prop :=
| cv_empty : caseVariant EmptyString EmptyString
| cv_char : forall c c' s s',
    lowerByte c = lowerByte c' ->
    caseVariant s s' ->
    caseVariant (String c s) (String c' s').

(** A Go map literal with string keys, read with [m[name]]. *)
Fixpoint lookup {A} (m : list (string * A)) (key : string) : option A :=
  match m with
  | [] => None
  | (k, v) :: m' => if String.eqb k key then Some v else lookup m' key
  end.

(* ===================================================================== *)
(** ** Registries                                                         *)
(* ===================================================================== *)

(** The enchantment types the source names (package [enchantment]). *)
Inductive EnchantmentType : Type :=
| Protection | FireProtection | FeatherFalling | BlastProtection
| ProjectileProtection | Thorns | Respiration | DepthStrider | AquaAffinity
| Sharpness | Knockback | FireAspect | Efficiency | SilkTouch | Unbreaking
| Fortune | Power | Punch | Flame | Infinity | Mending | CurseOfVanishing
| Multishot | QuickCharge | SoulSpeed | SwiftSneak.

(** The potion variants the source names (package [potion]). *)
Inductive Potion : Type :=
| Water | Mundane | LongMundane | Thick | Awkward | NightVision
| LongNightVision | Invisibility | LongInvisibility | Leaping | LongLeaping
| StrongLeaping | FireResistance | LongFireResistance | Swiftness
| LongSwiftness | StrongSwiftness | Slowness | LongSlowness | StrongSlowness
| WaterBreathing | LongWaterBreathing | Healing | StrongHealing | Harming
| StrongHarming | Poison | LongPoison | StrongPoison | Regeneration
| LongRegeneration | StrongRegeneration | Strength | LongStrength
| StrongStrength | Weakness | LongWeakness | Wither | TurtleMaster
| LongTurtleMaster | StrongTurtleMaster | SlowFalling | LongSlowFalling.

Definition enchantmentTable : list (string * EnchantmentType) :=
  [ ("protection", Protection);
    ("fire_protection", FireProtection);
    ("feather_falling", FeatherFalling);
    ("blast_protection", BlastProtection);
    ("projectile_protection", ProjectileProtection);
    ("thorns", Thorns);
    ("respiration", Respiration);
    ("depth_strider", DepthStrider);
    ("aqua_affinity", AquaAffinity);
    ("sharpness", Sharpness);
    ("knockback", Knockback);
    ("fire_aspect", FireAspect);
    ("efficiency", Efficiency);
    ("silk_touch", SilkTouch);
    ("unbreaking", Unbreaking);
    ("fortune", Fortune);
    ("power", Power);
    ("punch", Punch);
    ("flame", Flame);
    ("infinity", Infinity);
    ("mending", Mending);
    ("curse_of_vanishing", CurseOfVanishing);
    ("multishot", Multishot);
    ("quick_charge", QuickCharge);
    ("soul_speed", SoulSpeed);
    ("swift_sneak", SwiftSneak) ].

Definition enchantmentByName (name : string) : option EnchantmentType :=
  let name := ToLower (TrimPrefix name "minecraft:") in
  lookup enchantmentTable name.

Definition getAllEnchantments : list EnchantmentType :=
  [ Protection; FireProtection; FeatherFalling;
    BlastProtection; ProjectileProtection; Thorns;
    Respiration; DepthStrider; AquaAffinity;
    Sharpness; Knockback; FireAspect;
    Efficiency; SilkTouch; Unbreaking;
    Fortune; Power; Punch;
    Flame; Infinity; Mending;
    CurseOfVanishing; Multishot; QuickCharge;
    SoulSpeed; SwiftSneak ].

Definition potionTable : list (string * Potion) :=
  [ ("water", Water);
    ("mundane", Mundane);
    ("long_mundane", LongMundane);
    ("thick", Thick);
    ("awkward", Awkward);
    ("night_vision", NightVision);
    ("long_night_vision", LongNightVision);
    ("invisibility", Invisibility);
    ("long_invisibility", LongInvisibility);
    ("leaping", Leaping);
    ("long_leaping", LongLeaping);
    ("strong_leaping", StrongLeaping);
    ("fire_resistance", FireResistance);
    ("long_fire_resistance", LongFireResistance);
    ("swiftness", Swiftness);
    ("long_swiftness", LongSwiftness);
    ("strong_swiftness", StrongSwiftness);
    ("slowness", Slowness);
    ("long_slowness", LongSlowness);
    ("strong_slowness", StrongSlowness);
    ("water_breathing", WaterBreathing);
    ("long_water_breathing", LongWaterBreathing);
    ("healing", Healing);
    ("strong_healing", StrongHealing);
    ("harming", Harming);
    ("strong_harming", StrongHarming);
    ("poison", Poison);
    ("long_poison", LongPoison);
    ("strong_poison", StrongPoison);
    ("regeneration", Regeneration);
    ("long_regeneration", LongRegeneration);
    ("strong_regeneration", StrongRegeneration);
    ("strength", Strength);
    ("long_strength", LongStrength);
    ("strong_strength", StrongStrength);
    ("weakness", Weakness);
    ("long_weakness", LongWeakness);
    ("wither", Wither);
    ("turtle_master", TurtleMaster);
    ("long_turtle_master", LongTurtleMaster);
    ("strong_turtle_master", StrongTurtleMaster);
    ("slow_falling", SlowFalling);
    ("long_slow_falling", LongSlowFalling) ].

Definition potionByName (name : string) : option Potion :=
  let name := ToLower (TrimPrefix name "minecraft:") in
  lookup potionTable name.

(* ===================================================================== *)
(** ** The item library the package is written against                    *)
(* ===================================================================== *)

(** Packages [item] and [world] are not part of the sources at hand; what
    [loot] uses of them is taken as an interface.  [Item] is [world.Item]
    (an interface value, possibly nil), [Stack] is [item.Stack] and
    [Enchantment] is [item.Enchantment]. *)
Class ItemLibrary : Type := {
  Item : Type;
  Stack : Type;
  Enchantment : Type;
  (** [world.ItemByName(name, meta)] *)
  ItemByName : string -> Z -> option Item;
  (** [item.NewStack(it, count)] *)
  NewStack : Item -> Z -> Stack;
  (** [item.Stack{}] *)
  emptyStack : Stack;
  (** [s.Item()] and [s.Count()] *)
  StackItem : Stack -> Item;
  StackCount : Stack -> Z;
  (** [item.NewEnchantment(t, lvl)] and [s.WithEnchantments(e)] *)
  NewEnchantment : EnchantmentType -> Z -> Enchantment;
  WithEnchantments : Stack -> Enchantment -> Stack;
  (** [t.CompatibleWithItem(it)] and [t.MaxLevel()] *)
  CompatibleWithItem : EnchantmentType -> Item -> bool;
  MaxLevel : EnchantmentType -> Z;
  (** the type assertions [it.(item.Potion)] and [it.(item.SplashPotion)] *)
  isPotion : Item -> bool;
  isSplashPotion : Item -> bool;
  (** [item.Potion{Type: pot}] and [item.SplashPotion{Type: pot}] *)
  PotionItem : Potion -> Item;
  SplashPotionItem : Potion -> Item
}.

(* ===================================================================== *)
(** ** Rolling                                                            *)
(* ===================================================================== *)

Definition RollValue (v : Value) : M Z :=
  if Max v <=? Min v then ret (Min v)
  else r <- Intn (wrap (wrap (Max v - Min v) + 1)) ;;
       ret (wrap (r + Min v)).

Section Logic.

Context {L : ItemLibrary}.

(** The enchantments of the catalogue compatible with the stack's item, in
    catalogue order (the loop that builds [valid]). *)
Definition compatible (s : Stack) : list EnchantmentType :=
  filter (fun enc => CompatibleWithItem enc (StackItem s)) getAllEnchantments.

Definition applyRandomEnchant (s : Stack) : M Stack :=
  let valid := compatible s in
  if 0 <? Z.of_nat (List.length valid) then
    i <- Intn (Z.of_nat (List.length valid)) ;;
    match nth_error valid (Z.to_nat i) with
    | Some e => ret (WithEnchantments s (NewEnchantment e 1))
    | None => panic
    end
  else ret s.

(** The loop of [applyEnchantWithLevels] over the catalogue [encs]. *)
Fixpoint enchantWithLevelsLoop (encs : list EnchantmentType) (s : Stack)
    (levels : Z) : M Stack :=
  match encs with
  | [] => ret s
  | enc :: rest =>
      if CompatibleWithItem enc (StackItem s) then
        if 0 <? levels then
          let max := MaxLevel enc in
          if ((15 <? levels) && (1 <? max))%bool then
            r <- Intn max ;;
            ret (WithEnchantments s (NewEnchantment enc (wrap (r + 1))))
          else ret (WithEnchantments s (NewEnchantment enc 1))
        else enchantWithLevelsLoop rest s levels
      else enchantWithLevelsLoop rest s levels
  end.

Definition applyEnchantWithLevels (s : Stack) (levels : Z) : M Stack :=
  enchantWithLevelsLoop getAllEnchantments s levels.

(** First loop over [e.Functions]: every [set_count] rolls the count. *)
Fixpoint countLoop (fs : list Function) (count : Z) : M Z :=
  match fs with
  | [] => ret count
  | f :: fs' =>
      if String.eqb (fn_Function f) "set_count" then
        c <- RollValue (fn_Count f) ;; countLoop fs' c
      else countLoop fs' count
  end.

(** The loop of [specific_enchants] over [f.Enchants]. *)
Fixpoint specificEnchants (specs : list EnchantConfig) (s : Stack) : M Stack :=
  match specs with
  | [] => ret s
  | spec :: specs' =>
      match enchantmentByName (ec_ID spec) with
      | Some enc =>
          lvl <- RollValue (ec_Level spec) ;;
          specificEnchants specs' (WithEnchantments s (NewEnchantment enc lvl))
      | None => specificEnchants specs' s
      end
  end.

(** The [set_potion] case. *)
Definition setPotion (id : string) (s : Stack) : Stack :=
  match potionByName id with
  | Some pot =>
      if isPotion (StackItem s) then NewStack (PotionItem pot) (StackCount s)
      else if isSplashPotion (StackItem s)
           then NewStack (SplashPotionItem pot) (StackCount s)
           else s
  | None => s
  end.

(** One iteration of the second loop over [e.Functions]: the [switch]. *)
Definition applyFunction (f : Function) (s : Stack) : M Stack :=
  if String.eqb (fn_Function f) "enchant_randomly" then applyRandomEnchant s
  else if String.eqb (fn_Function f) "enchant_with_levels" then
    levels <- RollValue (fn_Levels f) ;; applyEnchantWithLevels s levels
  else if String.eqb (fn_Function f) "specific_enchants" then
    specificEnchants (fn_Enchants f) s
  else if String.eqb (fn_Function f) "set_potion" then
    ret (setPotion (fn_ID f) s)
  else ret s.

Fixpoint applyLoop (fs : list Function) (s : Stack) : M Stack :=
  match fs with
  | [] => ret s
  | f :: fs' => s' <- applyFunction f s ;; applyLoop fs' s'
  end.

(** What [rollEntry] does with the entry the draw fell on (the body of
    [if r < current]).  The diagnostic printed for an unknown item goes to
    standard output and is left out. *)
Definition produce (e : Entry) : M (Stack * bool) :=
  if negb (String.eqb (Type_ e) "item") then ret (emptyStack, false)
  else
    let name := TrimPrefix (Name e) "minecraft:" in
    match ItemByName (String.append "minecraft:" name) 0 with
    | None => ret (emptyStack, false)
    | Some it =>
        count <- countLoop (Functions e) 1 ;;
        s <- applyLoop (Functions e) (NewStack it count) ;;
        ret (s, true)
    end.

(** First loop of [rollEntry].  The range variable [e] is a copy of the
    slice element; [e.Weight = 1] changes that copy. *)
Fixpoint sumWeights (es : list Entry) (totalWeight : Z) : Z :=
  match es with
  | [] => totalWeight
  | elem :: es' =>
      let e := elem in
      let e := if Weight e =? 0
               then mkEntry (Type_ e) (Name e) 1 (Functions e) else e in
      sumWeights es' (wrap (totalWeight + Weight e))
  end.

(** Second loop of [rollEntry]: it ranges over [p.Entries] again. *)
Fixpoint walk (es : list Entry) (current r : Z) : M (Stack * bool) :=
  match es with
  | [] => ret (emptyStack, false)
  | e :: es' =>
      let current := wrap (current + Weight e) in
      if r <? current then produce e else walk es' current r
  end.

Definition rollEntry (p : Pool) : M (Stack * bool) :=
  let totalWeight := sumWeights (Entries p) 0 in
  if totalWeight <=? 0 then ret (emptyStack, false)
  else r <- Intn totalWeight ;; walk (Entries p) 0 r.

(** The inner loop of [Generate]: [n] iterations remain. *)
Fixpoint rollLoop (p : Pool) (n : nat) (stacks : list Stack) : M (list Stack) :=
  match n with
  | O => ret stacks
  | S n' =>
      res <- rollEntry p ;;
      let '(s, ok) := res in
      rollLoop p n' (if ok then stacks ++ [s] else stacks)
  end.

(** One iteration of the outer loop of [Generate]. *)
Definition generatePool (p : Pool) (stacks : list Stack) : M (list Stack) :=
  rolls <- RollValue (Rolls p) ;;
  rollLoop p (Z.to_nat rolls) stacks.

Fixpoint generatePools (ps : list Pool) (stacks : list Stack) : M (list Stack) :=
  match ps with
  | [] => ret stacks
  | p :: ps' => stacks' <- generatePool p stacks ;; generatePools ps' stacks'
  end.

(** The method [LootTable.Generate]. *)
Definition LootTable_Generate (t : LootTable) : M (list Stack) :=
  generatePools (Pools t) [].

End Logic.

(* ===================================================================== *)
(** ** Parsing and loading                                                *)
(* ===================================================================== *)

(** [encoding/json] and the embedded file system, as the package calls
    them.  A decoder returns [Some] where [json.Unmarshal] returns a nil
    error.  Raw data is a byte string. *)
Class Loader : Type := {
  error : Type;
  (** [json.Unmarshal(data, &i)] for [var i int] *)
  unmarshalInt : string -> option Z;
  (** [json.Unmarshal(data, &m)] for [m] with the fields [min] and [max] *)
  unmarshalMinMax : string -> option (Z * Z);
  (** [json.Unmarshal(b, &t)] for a freshly declared [t LootTable]: the
      table as the decoder leaves it, and the error it returns *)
  unmarshalTable : string -> LootTable * option error;
  (** [lootFS.ReadFile(path)] *)
  ReadFile : string -> string + error
}.

Section Loading.

Context {L : ItemLibrary} {D : Loader}.

(** [(v *Value) UnmarshalJSON(data)]: the receiver after the call and the
    error returned. *)
Definition Value_UnmarshalJSON (v : Value) (data : string) : Value * option error :=
  match unmarshalInt data with
  | Some i => (mkValue i i, None)
  | None =>
      match unmarshalMinMax data with
      | Some (lo, hi) => (mkValue lo hi, None)
      | None => (v, None)
      end
  end.



End Loading.

(* ===================================================================== *)
(** ** Generation over an explicit store                                  *)
(* ===================================================================== *)

(** The same loops with the table held in a store.  [Generate] receives
    [t] by value and [rollEntry] a pointer to the loop's copy of a pool,
    but the slices [t.Pools] and [p.Entries] still point at the arrays of
    the caller's table: a write through them would be seen by the caller.
    Every function here returns the store as it leaves it. *)
Module Frame.

Definition updateAt {A} (l : list A) (i : nat) (f : A -> A) : list A :=
  match nth_error l i with
  | Some a => firstn i l ++ f a :: skipn (S i) l
  | None => l
  end.

(** Writes the array [arr] back as the entries of pool [pi]. *)
Definition storeEntries (t : LootTable) (pi : nat) (arr : list Entry) : LootTable :=
  mkLootTable (updateAt (Pools t) pi (fun p => mkPool (Rolls p) arr)).

(** First loop of [rollEntry] from index [i], [n] elements to go: [e] is
    a local copy of [arr[i]] and the assignment goes to the copy. *)
Fixpoint sumWeightsAt (arr : list Entry) (i n : nat) (totalWeight : Z)
    : list Entry * Z :=
  match n with
  | O => (arr, totalWeight)
  | S n' =>
      match nth_error arr i with
      | None => (arr, totalWeight)
      | Some elem =>
          let e := elem in
          let e := if Weight e =? 0
                   then mkEntry (Type_ e) (Name e) 1 (Functions e) else e in
          sumWeightsAt arr (S i) n' (wrap (totalWeight + Weight e))
      end
  end.

Section WithLibrary.

Context {L : ItemLibrary}.

(** [p.rollEntry()] for the pool at index [pi] of the store. *)
Definition rollEntryAt (t : LootTable) (pi : nat) : M ((Stack * bool) * LootTable) :=
  match nth_error (Pools t) pi with
  | None => panic
  | Some p =>
      let '(arr, totalWeight) :=
        sumWeightsAt (Entries p) 0 (List.length (Entries p)) 0 in
      (* the array the first loop leaves is the one the store now holds *)
      let t := storeEntries t pi arr in
      if totalWeight <=? 0 then ret ((emptyStack, false), t)
      else r <- Intn totalWeight ;;
           res <- walk arr 0 r ;;
           ret (res, t)
  end.

Fixpoint rollLoopAt (t : LootTable) (pi : nat) (n : nat) (stacks : list Stack)
    : M (list Stack * LootTable) :=
  match n with
  | O => ret (stacks, t)
  | S n' =>
      res <- rollEntryAt t pi ;;
      let '((s, ok), t') := res in
      rollLoopAt t' pi n' (if ok then stacks ++ [s] else stacks)
  end.

(** The outer loop of [Generate] from pool [pi], [n] pools to go. *)
Fixpoint generateAt (t : LootTable) (pi n : nat) (stacks : list Stack)
    : M (list Stack * LootTable) :=
  match n with
  | O => ret (stacks, t)
  | S n' =>
      match nth_error (Pools t) pi with
      | None => ret (stacks, t)
      | Some p =>
          rolls <- RollValue (Rolls p) ;;
          res <- rollLoopAt t pi (Z.to_nat rolls) stacks ;;
          let '(stacks', t') := res in
          generateAt t' (S pi) n' stacks'
      end
  end.

(** [t.Generate()]: the stacks and the table after the call. *)
Definition GenerateWithStore (t : LootTable) : M (list Stack * LootTable) :=
  generateAt t 0 (List.length (Pools t)) [].

End WithLibrary.

End Frame.

(* ===================================================================== *)
(** ** A small catalogue to run the definitions on                        *)
(* ===================================================================== *)

(** A stand-in for the item library: four items, stacks as records of an
    item, a quantity and the enchantments attached so far. *)
Module Fake.

Inductive item : Type :=
| NoItem
| Stick
| DiamondSword
| Bottle (p : Potion)
| SplashBottle (p : Potion).

Record stack : Type := mkStack {
  st_item : item;
  st_count : Z;
  st_enchantments : list (EnchantmentType * Z)
}.

Definition itemByName (name : string) (meta : Z) : option item :=
  if String.eqb name "minecraft:stick" then Some Stick
  else if String.eqb name "minecraft:diamond_sword" then Some DiamondSword
  else if String.eqb name "minecraft:potion" then Some (Bottle Water)
  else if String.eqb name "minecraft:splash_potion" then Some (SplashBottle Water)
  else None.

Definition compatibleWith (t : EnchantmentType) (it : item) : bool :=
  match it, t with
  | DiamondSword, (Sharpness | Knockback | FireAspect | Unbreaking
                  | Mending | CurseOfVanishing) => true
  | _, _ => false
  end.

Definition maxLevel (t : EnchantmentType) : Z :=
  match t with
  | Protection | FireProtection | FeatherFalling | BlastProtection
  | ProjectileProtection => 4
  | Thorns | Respiration | DepthStrider | Unbreaking | Fortune
  | QuickCharge | SoulSpeed | SwiftSneak => 3
  | Sharpness | Efficiency | Power => 5
  | Knockback | FireAspect | Punch => 2
  | AquaAffinity | SilkTouch | Flame | Infinity | Mending
  | CurseOfVanishing | Multishot => 1
  end.

#[global] Instance library : ItemLibrary := {|
  Item := item;
  Stack := stack;
  Enchantment := EnchantmentType * Z;
  ItemByName := itemByName;
  NewStack := fun it count => mkStack it count [];
  emptyStack := mkStack NoItem 0 [];
  StackItem := st_item;
  StackCount := st_count;
  NewEnchantment := fun t lvl => (t, lvl);
  WithEnchantments := fun s e =>
    mkStack (st_item s) (st_count s) (st_enchantments s ++ [e]);
  CompatibleWithItem := compatibleWith;
  MaxLevel := maxLevel;
  isPotion := fun it => match it with Bottle _ => true | _ => false end;
  isSplashPotion := fun it => match it with SplashBottle _ => true | _ => false end;
  PotionItem := Bottle;
  SplashPotionItem := SplashBottle
|}.

(** A loader over two embedded files; the decoder is a fixed table. *)
Definition stickTable : LootTable :=
  mkLootTable
    [ mkPool (mkValue 1 1)
        [ mkEntry "item" "stick" 1
            [ mkFunction "set_count" (mkValue 2 2) zeroValue "" [] ] ] ].

#[global] Instance loader : Loader := {|
  error := string;
  unmarshalInt := fun data =>
    if String.eqb data "3" then Some 3 else None;
  unmarshalMinMax := fun data =>
    if String.eqb data "{min:1,max:4}" then Some (1, 4) else None;
  unmarshalTable := fun b =>
    if String.eqb b "stick" then (stickTable, None)
    else (mkLootTable [], Some "json: cannot unmarshal string into Go struct field LootTable.pools");
  ReadFile := fun path =>
    if String.eqb path "chests/stick.json" then inl "stick"
    else if String.eqb path "chests/broken.json" then inl "{pools:oops}"
    else inr "file does not exist"
|}.

(** The pipeline as the specification words it, to compare [rollEntry]
    with: one pass over the functions in declared order, starting from the
    base stack of quantity 1, where [set_count] replaces the quantity of
    the stack it receives with a roll made at that point. *)
Definition replaceQuantity (s : stack) (n : Z) : stack :=
  mkStack (st_item s) n (st_enchantments s).

Fixpoint pipelineAsSpecified (fs : list Function) (s : stack) : M stack :=
  match fs with
  | [] => ret s
  | f :: fs' =>
      s' <- (if String.eqb (fn_Function f) "set_count"
             then n <- RollValue (fn_Count f) ;; ret (replaceQuantity s n)
             else applyFunction f s) ;;
      pipelineAsSpecified fs' s'
  end.

(** The source that hands out [k, k+1, k+2, ...]. *)
Definition counting (k : Z) : Source :=
  mkSource (fun i => k + Z.of_nat i) 0 [].

End Fake.

(* ===================================================================== *)
(** ** Specification-side notions                                         *)
(* ===================================================================== *)

(** A range [RollValue] can roll: a fixed one, or one whose number of
    values [Max - Min + 1] is still an [int]. *)
Definition rollable (v : Value) : Prop :=
  Max v <= Min v \/
  (inRange (Min v) /\ inRange (Max v) /\ Max v - Min v < maxInt).

(** The weight an entry adds to [totalWeight] in the first loop. *)
Definition countedWeight (e : Entry) : Z :=
  if Weight e =? 0 then 1 else Weight e.

Definition sumCounted (es : list Entry) : Z :=
  fold_right (fun e acc => countedWeight e + acc) 0 es.


(** The entry the second loop of [rollEntry] stops at for the draw [r]. *)
Fixpoint pick (es : list Entry) (current r : Z) : option Entry :=
  match es with
  | [] => None
  | e :: es' =>
      let current := wrap (current + Weight e) in
      if r <? current then Some e else pick es' current r
  end.

Definition isSetCount (f : Function) : bool :=
  String.eqb (fn_Function f) "set_count".

Definition notSetCount (f : Function) : bool := negb (isSetCount f).

(** The functions of a list whose ranges can all be rolled. *)
Definition functionRollable (f : Function) : Prop :=
  (fn_Function f = "set_count" -> rollable (fn_Count f)) /\
  (fn_Function f = "enchant_with_levels" -> rollable (fn_Levels f)) /\
  (fn_Function f = "specific_enchants" ->
   Forall (fun spec => rollable (ec_Level spec)) (fn_Enchants f)).

(** The outcome [r] of a loop started on no stacks, seen from a loop
    started on the stacks [acc]: the stacks collected are only appended to. *)
Definition after {A} (acc : list A) (r : option (list A * Source))
    : option (list A * Source) :=
  match r with
  | Some (out, g) => Some (acc ++ out, g)
  | None => None
  end.

(** The outcome [r] of a computation, paired with the store [t]. *)
Definition withStore {A} (t : LootTable) (r : option (A * Source))
    : option ((A * LootTable) * Source) :=
  match r with
  | Some (a, g) => Some ((a, t), g)
  | None => None
  end.


(* ===================================================================== *)
(** ** Further notions for the loot package                               *)
(* ===================================================================== *)

(** The function names the two loops of [rollEntry] act on. *)
Definition knownFunction (name : string) : bool :=
  (String.eqb name "set_count" || String.eqb name "enchant_randomly"
   || String.eqb name "enchant_with_levels"
   || String.eqb name "specific_enchants" || String.eqb name "set_potion")%bool.

(** The sum of the weights as the table holds them. *)
Definition weightSum (es : list Entry) : Z :=
  fold_right (fun e acc => Weight e + acc) 0 es.

(** The largest number of rolls a pool's roll count can come to. *)
Definition rollsBound (p : Pool) : nat :=
  Z.to_nat (Z.max (Min (Rolls p)) (Max (Rolls p))).

Definition rollsBoundAll (ps : list Pool) : nat :=
  fold_right (fun p acc => (rollsBound p + acc)%nat) 0%nat ps.

Section FixedEnchants.

Context {L : ItemLibrary}.


End FixedEnchants.

(* ===================================================================== *)
(** ** Block properties                                                   *)
(* ===================================================================== *)

(** A value of a [map[string]any] of block properties or NBT data, as far
    as the blocks read it: an [int32], a [bool], or anything else. *)
Inductive Any : Type :=
| AInt32 (z : Z)
| ABool (b : bool)
| AOther.

(** [cube.Face]: the six faces, and any other value of the integer type. *)
Inductive Face : Type :=
| FaceDown | FaceUp | FaceNorth | FaceSouth | FaceWest | FaceEast
| FaceOther.

(** The conversion [int32(x)] of an [int]. *)
Definition toInt32 (z : Z) : Z := (z + 2147483648) mod 4294967296 - 2147483648.

(* ===================================================================== *)
(** ** Glow lichen                                                        *)
(* ===================================================================== *)

Module Lichen.

Record GlowLichen : Type := mkGlowLichen {
  Down : bool; Up : bool; North : bool; South : bool; West : bool; East : bool
}.

(** [==] on two lichens. *)
Definition eqb (a b : GlowLichen) : bool :=
  (Bool.eqb (Down a) (Down b) && Bool.eqb (Up a) (Up b)
   && Bool.eqb (North a) (North b) && Bool.eqb (South a) (South b)
   && Bool.eqb (West a) (West b) && Bool.eqb (East a) (East b))%bool.

(** The count the [BreakInfo] closure computes once it meets silk touch. *)
Definition faceCount (g : GlowLichen) : Z :=
  let count := 0 in
  let count := if North g then count + 1 else count in
  let count := if East g then count + 1 else count in
  let count := if South g then count + 1 else count in
  let count := if West g then count + 1 else count in
  let count := if Up g then count + 1 else count in
  let count := if Down g then count + 1 else count in
  count.

(** The drop function of [BreakInfo] over the tool's enchantments:
    [Some count] for the single stack [item.NewStack(GlowLichen{}, count)],
    [None] for nil.  [isSilkTouch] is the test
    [ench.Type() == enchantment.SilkTouch]. *)
Fixpoint breakDrops {E} (isSilkTouch : E -> bool) (g : GlowLichen)
    (enchantments : list E) : option Z :=
  match enchantments with
  | [] => None
  | ench :: rest =>
      if isSilkTouch ench then Some (faceCount g)
      else breakDrops isSilkTouch g rest
  end.

(** The bits [EncodeBlock] stores under "multi_face_direction_bits". *)
Definition blockBits (g : GlowLichen) : Z :=
  let bits := 0 in
  let bits := if Down g then Z.lor bits 1 else bits in
  let bits := if Up g then Z.lor bits 2 else bits in
  let bits := if South g then Z.lor bits 4 else bits in
  let bits := if West g then Z.lor bits 8 else bits in
  let bits := if North g then Z.lor bits 16 else bits in
  let bits := if East g then Z.lor bits 32 else bits in
  bits.

Definition EncodeBlock (g : GlowLichen) : string * list (string * Any) :=
  ("minecraft:glow_lichen", [("multi_face_direction_bits", AInt32 (blockBits g))]).

Definition hasFace (g : GlowLichen) (f : Face) : bool :=
  match f with
  | FaceUp => Up g
  | FaceDown => Down g
  | FaceNorth => North g
  | FaceSouth => South g
  | FaceWest => West g
  | FaceEast => East g
  | FaceOther => false
  end.

Definition WithFace (g : GlowLichen) (f : Face) : GlowLichen :=
  match f with
  | FaceUp => mkGlowLichen (Down g) true (North g) (South g) (West g) (East g)
  | FaceDown => mkGlowLichen true (Up g) (North g) (South g) (West g) (East g)
  | FaceNorth => mkGlowLichen (Down g) (Up g) true (South g) (West g) (East g)
  | FaceSouth => mkGlowLichen (Down g) (Up g) (North g) true (West g) (East g)
  | FaceWest => mkGlowLichen (Down g) (Up g) (North g) (South g) true (East g)
  | FaceEast => mkGlowLichen (Down g) (Up g) (North g) (South g) (West g) true
  | FaceOther => g
  end.

(** The world as the lichen at [pos] sees it: [supported f] is
    [tx.Block(pos.Side(f)).Model().FaceSolid(pos.Side(f), f.Opposite(), tx)]. *)
Section InWorld.

Variable supported : Face -> bool.

(** [attemptMerge]: [Some l] when it sets the block to [l], plays the
    sound, takes one item and returns true; [None] when it returns false
    and leaves the world alone. *)
Definition attemptMerge (existing : GlowLichen) (face : Face) : option GlowLichen :=
  let newLichen := WithFace existing face in
  if eqb newLichen existing then None
  else if negb (supported face) then None
  else Some newLichen.

(** [attemptMergeAny] over the faces [cube.Faces()] lists. *)
Fixpoint attemptMergeAny (faces : list Face) (existing : GlowLichen)
    : option GlowLichen :=
  match faces with
  | [] => None
  | f :: rest =>
      if negb (hasFace existing f) then
        if supported f then
          match attemptMerge existing f with
          | Some l => Some l
          | None => attemptMergeAny rest existing
          end
        else attemptMergeAny rest existing
      else attemptMergeAny rest existing
  end.

(** What [NeighbourUpdateTick] does to the block. *)
Inductive TickOutcome : Type :=
| Untouched
| Broken
| Replaced (g : GlowLichen).

(** The closure [checkSupport]: the new values of [*attached] and [changed]. *)
Definition checkSupport (face : Face) (attached changed : bool) : bool * bool :=
  if negb attached then (attached, changed)
  else if negb (supported face) then (false, true) else (attached, changed).

Definition NeighbourUpdateTick (g : GlowLichen) : TickOutcome :=
  let changed := false in
  let '(down, changed) := checkSupport FaceDown (Down g) changed in
  let '(up, changed) := checkSupport FaceUp (Up g) changed in
  let '(north, changed) := checkSupport FaceNorth (North g) changed in
  let '(south, changed) := checkSupport FaceSouth (South g) changed in
  let '(west, changed) := checkSupport FaceWest (West g) changed in
  let '(east, changed) := checkSupport FaceEast (East g) changed in
  if negb changed then Untouched
  else if (negb down && negb up && negb north && negb south
           && negb west && negb east)%bool then Broken
  else Replaced (mkGlowLichen down up north south west east).

End InWorld.

Definition lichenOfIndex (i : Z) : GlowLichen :=
  mkGlowLichen (negb (Z.land i 1 =? 0)) (negb (Z.land i 2 =? 0))
               (negb (Z.land i 16 =? 0)) (negb (Z.land i 4 =? 0))
               (negb (Z.land i 8 =? 0)) (negb (Z.land i 32 =? 0)).

(** The loop of [allGlowLichens] from [i], [n] rounds to go. *)
Fixpoint allGlowLichensFrom (i : Z) (n : nat) (b : list GlowLichen)
    : list GlowLichen :=
  match n with
  | O => b
  | S n' => allGlowLichensFrom (i + 1) n' (b ++ [lichenOfIndex i])
  end.

Definition allGlowLichens : list GlowLichen := allGlowLichensFrom 0 64 [].

(** The bits [EncodeNBT] stores. *)
Definition nbtBits (g : GlowLichen) : Z :=
  let bits := 0 in
  let bits := if Down g then Z.lor bits 1 else bits in
  let bits := if Up g then Z.lor bits 2 else bits in
  let bits := if North g then Z.lor bits 4 else bits in
  let bits := if South g then Z.lor bits 8 else bits in
  let bits := if West g then Z.lor bits 16 else bits in
  let bits := if East g then Z.lor bits 32 else bits in
  bits.


(** [DecodeNBT]; [None] is the panic of the assertion [v.(int32)]. *)
Definition DecodeNBT (g : GlowLichen) (data : list (string * Any))
    : option GlowLichen :=
  match lookup data "multi_face_direction_bits" with
  | Some v =>
      match v with
      | AInt32 bits =>
          Some (mkGlowLichen (negb (Z.land bits 1 =? 0))
                             (negb (Z.land bits 2 =? 0))
                             (negb (Z.land bits 4 =? 0))
                             (negb (Z.land bits 8 =? 0))
                             (negb (Z.land bits 16 =? 0))
                             (negb (Z.land bits 32 =? 0)))
      | _ => None
      end
  | None => Some g
  end.

End Lichen.

(* ===================================================================== *)
(** ** Snow layers                                                        *)
(* ===================================================================== *)

Module Snow.

Record SnowLayer : Type := mkSnowLayer { Height : Z; Covered : bool }.

(** [model.SnowLayer.FaceSolid] for the model of a layer of this height. *)
Definition FaceSolid (height : Z) (face : Face) : bool :=
  if height =? 7 then true
  else match face with FaceDown => true | _ => false end.

(** A stack the drop function of [BreakInfo] returns. *)
Inductive Drop : Type :=
| SnowBlocks (count : Z)
| Layers (s : SnowLayer) (count : Z)
| Snowballs (count : Z).

(** The drop function of [BreakInfo]; [silk] is [hasSilkTouch(e)] and
    [shovel] is [t.ToolType() == item.TypeShovel]. *)
Definition breakDrops (s : SnowLayer) (silk shovel : bool) : list Drop :=
  if silk then
    if Height s =? 7 then [SnowBlocks 1]
    else [Layers s (wrap (Height s + 1))]
  else if shovel then
    let count :=
      if 7 <=? Height s then 4
      else if 5 <=? Height s then 3
      else if 3 <=? Height s then 2
      else 1 in
    [Snowballs count]
  else [].

Definition EncodeBlock (s : SnowLayer) : string * list (string * Any) :=
  ("minecraft:snow_layer",
   [("height", AInt32 (toInt32 (Height s))); ("covered_bit", ABool (Covered s))]).


(** The loop of [allSnowLayers] from [i], [n] rounds to go. *)
Fixpoint allSnowLayersFrom (i : Z) (n : nat) (b : list SnowLayer)
    : list SnowLayer :=
  match n with
  | O => b
  | S n' =>
      allSnowLayersFrom (i + 1) n'
        ((b ++ [mkSnowLayer i false]) ++ [mkSnowLayer i true])
  end.

Definition allSnowLayers : list SnowLayer := allSnowLayersFrom 0 8 [].

(** What [UseOnBlock] asks the world to place. *)
Inductive Placed : Type :=
| PlaceLayer (s : SnowLayer)
| PlaceSnow.

(** The world as [UseOnBlock] reads it.  [layerAt pos] is the snow layer
    [tx.Block(pos)] holds, if it is one; [firstReplaceable] is the helper
    of that name for this block; [solidBelow pos] is the support test on
    the block under [pos]; [side pos face] is [pos.Side(face)]. *)
Section InWorld.

Variable Pos : Type.
Variable layerAt : Pos -> option SnowLayer.
Variable firstReplaceable : Pos -> Face -> Pos * Face * bool.
Variable solidBelow : Pos -> bool.

(** The two places where an existing layer is raised. *)
Definition raise (existing : SnowLayer) : Placed :=
  if Height existing <? 7
  then PlaceLayer (mkSnowLayer (wrap (Height existing + 1)) (Covered existing))
  else PlaceSnow.

(** [UseOnBlock]: [Some (pos, b)] when it calls [place(tx, pos, b, ...)]
    and returns [placed(ctx)], [None] when it returns false. *)
Definition UseOnBlock (s : SnowLayer) (pos : Pos) (face : Face)
    : option (Pos * Placed) :=
  match layerAt pos with
  | Some existing => Some (pos, raise existing)
  | None =>
      let '(pos, _, used) := firstReplaceable pos face in
      if negb used then None
      else
        match layerAt pos with
        | Some existing => Some (pos, raise existing)
        | None =>
            if negb (solidBelow pos) then None
            else Some (pos, PlaceLayer s)
        end
  end.

End InWorld.

(** [NeighbourUpdateTick]: whether the layer is broken, given the
    support test on the block below. *)
Definition NeighbourUpdateTick (solidBelow : bool) : bool := negb solidBelow.

End Snow.

(** Checks, key by key, that the keys of a registry are lower-case,
    carry no namespace and are not shadowed by an earlier key. *)
Ltac registry_keys :=
  repeat (apply Forall_cons; [repeat split; reflexivity |]); apply Forall_nil.

(** Closes a goal [exists a g', m g = Some (a, g')] once [m g] has been
    reduced to a value. *)
Ltac returned := eexists; eexists; reflexivity.

(* ===================================================================== *)
(** ** Integers and the random source                                     *)
(* ===================================================================== *)

Lemma wrap_inRange (z : Z) : inRange z -> wrap z = z.
Proof.
  unfold inRange, wrap, minInt, maxInt. intros H.
  rewrite Z.mod_small; lia.
Qed.

Lemma wrap_range (z : Z) : inRange (wrap z).
Proof.
  unfold inRange, wrap, minInt, maxInt.
  pose proof (Z.mod_pos_bound (z + 9223372036854775808) 18446744073709551616).
  lia.
Qed.

Lemma wrap_add_l (a b : Z) : wrap (wrap a + b) = wrap (a + b).
Proof.
  unfold wrap.
  replace ((a + 9223372036854775808) mod 18446744073709551616
           - 9223372036854775808 + b + 9223372036854775808)
    with ((a + 9223372036854775808) mod 18446744073709551616 + b) by lia.
  rewrite Zplus_mod_idemp_l. f_equal. f_equal. lia.
Qed.

Lemma Intn_positive (n : Z) (g : Source) :
  0 < n ->
  Intn n g = Some (raw g (pos g) mod n,
                   mkSource (raw g) (S (pos g)) (asked g ++ [n])).
Proof.
  intros H. unfold Intn. destruct (Z.leb_spec n 0); [lia | reflexivity].
Qed.

Lemma Intn_nonpositive (n : Z) (g : Source) : n <= 0 -> Intn n g = None.
Proof.
  intros H. unfold Intn. destruct (Z.leb_spec n 0); [reflexivity | lia].
Qed.

Lemma Intn_bounds (n r : Z) (g g' : Source) :
  Intn n g = Some (r, g') -> 0 <= r < n /\ pos g' = S (pos g).
Proof.
  unfold Intn. destruct (Z.leb_spec n 0); [discriminate |].
  intros E. inversion E; subst; clear E. simpl. split; [| reflexivity].
  apply Z.mod_pos_bound. assumption.
Qed.

(* ===================================================================== *)
(** ** RollValue                                                          *)
(* ===================================================================== *)

Lemma RollValue_fixed (v : Value) (g : Source) :
  Max v <= Min v -> RollValue v g = Some (Min v, g).
Proof.
  intros H. unfold RollValue. destruct (Z.leb_spec (Max v) (Min v)); [reflexivity | lia].
Qed.

Lemma RollValue_width (v : Value) :
  inRange (Min v) -> inRange (Max v) -> Min v < Max v ->
  Max v - Min v < maxInt ->
  wrap (wrap (Max v - Min v) + 1) = Max v - Min v + 1.
Proof.
  unfold inRange, minInt, maxInt. intros H1 H2 H3 H4.
  rewrite wrap_add_l. apply wrap_inRange. unfold inRange, minInt, maxInt. lia.
Qed.

Lemma RollValue_too_wide (v : Value) :
  inRange (Min v) -> inRange (Max v) -> maxInt <= Max v - Min v ->
  wrap (wrap (Max v - Min v) + 1) <= 0.
Proof.
  unfold inRange, minInt, maxInt. intros H1 H2 H3.
  rewrite wrap_add_l. unfold wrap.
  replace (Max v - Min v + 1 + 9223372036854775808)
    with ((Max v - Min v + 1 - 9223372036854775808) + 1 * 18446744073709551616) by lia.
  rewrite Z_mod_plus_full. rewrite Z.mod_small; lia.
Qed.

Lemma RollValue_rollable (v : Value) (g : Source) :
  rollable v -> exists x g', RollValue v g = Some (x, g').
Proof.
  intros [H | (H1 & H2 & H3)].
  - exists (Min v), g. apply RollValue_fixed; assumption.
  - unfold RollValue. destruct (Z.leb_spec (Max v) (Min v)).
    + eexists; eexists; reflexivity.
    + unfold bind. rewrite RollValue_width by assumption.
      rewrite Intn_positive by lia. eexists; eexists; reflexivity.
Qed.

(** C4, as amended.  [RollValue] returns [Min] without touching the random
    source when [Max <= Min]; when [Max > Min] and the number of values
    [Max - Min + 1] is an [int], it consumes one draw and returns a value
    of [[Min, Max]]; when [Max - Min + 1] overflows, [rand.Intn] is handed
    a bound that is not positive and the call panics. *)
Theorem RollValue_range (v : Value) (g : Source) :
  (Max v <= Min v -> RollValue v g = Some (Min v, g)) /\
  (Min v < Max v -> inRange (Min v) -> inRange (Max v) ->
   (Max v - Min v < maxInt ->
    exists x g', RollValue v g = Some (x, g') /\
                 Min v <= x <= Max v /\ pos g' = S (pos g)) /\
   (maxInt <= Max v - Min v -> RollValue v g = None)).
Proof.
  split; [apply RollValue_fixed |].
  intros Hlt Hmin Hmax. split; intros Hw.
  - unfold RollValue. destruct (Z.leb_spec (Max v) (Min v)); [lia |].
    unfold bind. rewrite RollValue_width by assumption.
    rewrite Intn_positive by lia.
    pose proof (Z.mod_pos_bound (raw g (pos g)) (Max v - Min v + 1)) as B.
    eexists; eexists; split; [reflexivity |]. simpl.
    rewrite wrap_inRange; [split; [lia | reflexivity] |].
    unfold inRange, minInt, maxInt in *. lia.
  - unfold RollValue. destruct (Z.leb_spec (Max v) (Min v)); [lia |].
    unfold bind. rewrite Intn_nonpositive; [reflexivity |].
    apply RollValue_too_wide; assumption.
Qed.

Lemma RollValue_range_witness :
  let v := mkValue 1 3 in
  let g := Fake.counting 7 in
  Min v < Max v /\ inRange (Min v) /\ inRange (Max v) /\
  Max v - Min v < maxInt /\
  exists x g', RollValue v g = Some (x, g') /\
               Min v <= x <= Max v /\ pos g' = S (pos g).
Proof.
  assert (Hlt : Min (mkValue 1 3) < Max (mkValue 1 3)) by (simpl; lia).
  assert (Hmin : inRange (Min (mkValue 1 3))) by (unfold inRange, minInt, maxInt; simpl; lia).
  assert (Hmax : inRange (Max (mkValue 1 3))) by (unfold inRange, minInt, maxInt; simpl; lia).
  assert (Hw : Max (mkValue 1 3) - Min (mkValue 1 3) < maxInt) by (unfold maxInt; simpl; lia).
  split; [exact Hlt |]. split; [exact Hmin |]. split; [exact Hmax |].
  split; [exact Hw |].
  exact (proj1 (proj2 (RollValue_range (mkValue 1 3) (Fake.counting 7)) Hlt Hmin Hmax) Hw).
Defined.

(** C4 as stated fails: the range from 0 to the largest [int] has
    [Max > Min], yet no value is returned, whatever the source holds. *)
Lemma RollValue_widest_range_panics :
  Min (mkValue 0 9223372036854775807) < Max (mkValue 0 9223372036854775807) /\
  RollValue (mkValue 0 9223372036854775807) (Fake.counting 0) = None /\
  ~ (exists x g', RollValue (mkValue 0 9223372036854775807) (Fake.counting 0)
                  = Some (x, g') /\ 0 <= x <= 9223372036854775807).
Proof.
  assert (E : RollValue (mkValue 0 9223372036854775807) (Fake.counting 0) = None)
    by (vm_compute; reflexivity).
  split; [simpl; lia |]. split; [exact E |].
  intros (x & g' & H & _). rewrite E in H. discriminate.
Qed.

(* ===================================================================== *)
(** ** Weighted selection                                                 *)
(* ===================================================================== *)

Lemma sumWeights_counted (es : list Entry) (t : Z) :
  inRange t -> sumWeights es t = wrap (t + sumCounted es).
Proof.
  revert t. induction es as [| e es IH]; intros t Ht; simpl.
  - rewrite Z.add_0_r. symmetry. apply wrap_inRange. assumption.
  - replace (Weight (if Weight e =? 0
                     then mkEntry (Type_ e) (Name e) 1 (Functions e) else e))
      with (countedWeight e)
      by (unfold countedWeight; destruct (Weight e =? 0); reflexivity).
    rewrite IH by apply wrap_range.
    rewrite wrap_add_l. f_equal. lia.
Qed.

Lemma inRange_0 : inRange 0.
Proof. unfold inRange, minInt, maxInt. lia. Qed.





Section Selection.

Context {L : ItemLibrary}.

Lemma walk_pick (es : list Entry) (current r : Z) (g : Source) :
  walk es current r g =
  match pick es current r with
  | Some e => produce e g
  | None => Some ((emptyStack, false), g)
  end.
Proof.
  revert current. induction es as [| e es IH]; intros current; simpl.
  - reflexivity.
  - destruct (r <? wrap (current + Weight e)); [reflexivity | apply IH].
Qed.

Lemma rollEntry_unfold (p : Pool) (g : Source) :
  rollEntry p g =
  if sumWeights (Entries p) 0 <=? 0 then Some ((emptyStack, false), g)
  else match Intn (sumWeights (Entries p) 0) g with
       | Some (r, g') => walk (Entries p) 0 r g'
       | None => None
       end.
Proof.
  unfold rollEntry. destruct (sumWeights (Entries p) 0 <=? 0); reflexivity.
Qed.


End Selection.



(** The second loop reads the weights as the table holds them: an entry
    of weight 0 adds nothing to the running sum, and a pool that holds
    nothing else never passes the draw. *)
Remark zero_weight_entry_not_reached {L : ItemLibrary} (p : Pool) (e : Entry) :
  Entries p = [e] -> Weight e = 0 ->
  forall g, exists g', rollEntry p g = Some ((emptyStack, false), g').
Proof.
  intros He Hw g.
  assert (Hs : sumWeights [e] 0 = 1)
    by (rewrite sumWeights_counted by apply inRange_0;
        cbn [sumCounted fold_right]; unfold countedWeight; rewrite Hw;
        reflexivity).
  rewrite rollEntry_unfold, He, Hs. change (1 <=? 0) with false. cbv iota.
  rewrite Intn_positive by lia. cbn [walk]. rewrite Hw, Z.mod_1_r.
  change (0 <? wrap (0 + 0)) with false. cbv iota.
  eexists. reflexivity.
Qed.

(* ===================================================================== *)
(** ** The function pipeline                                              *)
(* ===================================================================== *)

Lemma bind_ret_r {A} (m : M A) (g : Source) : (x <- m ;; ret x) g = m g.
Proof. unfold bind, ret. destruct (m g) as [[a g'] |]; reflexivity. Qed.

Lemma bind_assoc {A B C} (m : M A) (k : A -> M B) (h : B -> M C) (g : Source) :
  (y <- (x <- m ;; k x) ;; h y) g = (x <- m ;; y <- k x ;; h y) g.
Proof. unfold bind. destruct (m g) as [[a g'] |]; reflexivity. Qed.

Lemma bind_ext {A B} (m : M A) (k k' : A -> M B) (g : Source) :
  (forall a g', k a g' = k' a g') -> (x <- m ;; k x) g = (x <- m ;; k' x) g.
Proof.
  intros H. unfold bind. destruct (m g) as [[a g'] |]; [apply H | reflexivity].
Qed.

Section Pipeline.

Context {L : ItemLibrary}.

Lemma countLoop_filter (fs : list Function) (count : Z) (g : Source) :
  countLoop fs count g = countLoop (filter isSetCount fs) count g.
Proof.
  revert count g. induction fs as [| f fs IH]; intros count g; [reflexivity |].
  cbn [countLoop filter]. unfold isSetCount at 1.
  destruct (String.eqb (fn_Function f) "set_count") eqn:E.
  - cbn [countLoop]. rewrite E. apply bind_ext. intros; apply IH.
  - apply IH.
Qed.

Lemma applyFunction_set_count (f : Function) (s : Stack) (g : Source) :
  isSetCount f = true -> applyFunction f s g = Some (s, g).
Proof.
  unfold isSetCount, applyFunction. intros E.
  apply String.eqb_eq in E. rewrite E. reflexivity.
Qed.

Lemma applyLoop_filter (fs : list Function) (s : Stack) (g : Source) :
  applyLoop fs s g = applyLoop (filter notSetCount fs) s g.
Proof.
  revert s g. induction fs as [| f fs IH]; intros s g; [reflexivity |].
  cbn [applyLoop filter]. unfold notSetCount at 1.
  destruct (isSetCount f) eqn:E; cbn [negb].
  - unfold bind. rewrite applyFunction_set_count by assumption. apply IH.
  - cbn [applyLoop]. apply bind_ext. intros; apply IH.
Qed.

Lemma applyLoop_app (fs1 fs2 : list Function) (s : Stack) (g : Source) :
  applyLoop (fs1 ++ fs2) s g = (s' <- applyLoop fs1 s ;; applyLoop fs2 s') g.
Proof.
  revert s g. induction fs1 as [| f fs1 IH]; intros s g.
  - reflexivity.
  - cbn [app applyLoop]. rewrite bind_assoc. apply bind_ext. intros; apply IH.
Qed.

Lemma countLoop_last (fs : list Function) (sc : Function) (count : Z) (g : Source) :
  isSetCount sc = true ->
  countLoop (fs ++ [sc]) count g =
  (_ <- countLoop fs count ;; RollValue (fn_Count sc)) g.
Proof.
  intros Hsc. revert count g. induction fs as [| f fs IH]; intros count g.
  - cbn [app countLoop]. unfold isSetCount in Hsc. rewrite Hsc.
    unfold bind at 2. unfold ret at 2. apply bind_ret_r.
  - cbn [app countLoop].
    destruct (String.eqb (fn_Function f) "set_count").
    + rewrite bind_assoc. apply bind_ext. intros; apply IH.
    + apply IH.
Qed.

(** C2, as amended.  For an entry whose item resolves, [rollEntry] makes
    two passes over the declared functions.  The first rolls every
    [set_count], in declared order, the last one giving the count, and the
    base stack is minted with that count (1 when there is none); the
    second applies the other functions in declared order, each to the
    stack the previous one returned.  Random draws are consumed in that
    order: a [set_count] declared after another function takes effect,
    but draws before that function does. *)
Theorem pipeline_two_passes (e : Entry) (it : Item) :
  Type_ e = "item" ->
  ItemByName (String.append "minecraft:" (TrimPrefix (Name e) "minecraft:")) 0
    = Some it ->
  (forall g, produce e g =
     (count <- countLoop (filter isSetCount (Functions e)) 1 ;;
      s <- applyLoop (filter notSetCount (Functions e)) (NewStack it count) ;;
      ret (s, true)) g) /\
  (forall fs sc count g, isSetCount sc = true ->
     countLoop (fs ++ [sc]) count g =
     (_ <- countLoop fs count ;; RollValue (fn_Count sc)) g) /\
  (forall fs1 fs2 s g,
     applyLoop (fs1 ++ fs2) s g = (s' <- applyLoop fs1 s ;; applyLoop fs2 s') g) /\
  (forall f sc, Functions e = [f; sc] ->
     isSetCount f = false -> isSetCount sc = true ->
     forall g, produce e g =
       (count <- RollValue (fn_Count sc) ;;
        s <- applyFunction f (NewStack it count) ;;
        ret (s, true)) g).
Proof.
  intros Hty Hit.
  assert (Hprod : forall g, produce e g =
     (count <- countLoop (filter isSetCount (Functions e)) 1 ;;
      s <- applyLoop (filter notSetCount (Functions e)) (NewStack it count) ;;
      ret (s, true)) g).
  { intros g. unfold produce. rewrite Hty, String.eqb_refl. cbn [negb].
    cbv zeta. rewrite Hit. unfold bind.
    rewrite (countLoop_filter (Functions e)).
    destruct (countLoop (filter isSetCount (Functions e)) 1 g) as [[c g1] |];
      [| reflexivity].
    rewrite (applyLoop_filter (Functions e)). reflexivity. }
  split; [exact Hprod |].
  split; [intros; apply countLoop_last; assumption |].
  split; [intros; apply applyLoop_app |].
  intros f sc Hfs Hf Hsc g. rewrite Hprod, Hfs.
  cbn [filter]. unfold notSetCount. rewrite Hf, Hsc. cbn [negb].
  cbn [countLoop applyLoop]. unfold isSetCount in Hsc. rewrite Hsc.
  unfold bind, ret.
  destruct (RollValue (fn_Count sc) g) as [[c g1] |]; [| reflexivity].
  destruct (applyFunction f (NewStack it c) g1) as [[s g2] |]; reflexivity.
Qed.

End Pipeline.

Lemma pipeline_two_passes_witness :
  let f := mkFunction "enchant_randomly" zeroValue zeroValue "" [] in
  let sc := mkFunction "set_count" (mkValue 1 3) zeroValue "" [] in
  let e := mkEntry "item" "diamond_sword" 1 [f; sc] in
  Type_ e = "item" /\
  ItemByName (String.append "minecraft:" (TrimPrefix (Name e) "minecraft:")) 0
    = Some Fake.DiamondSword /\
  produce e (Fake.counting 0) =
    (count <- RollValue (fn_Count sc) ;;
     s <- applyFunction f (NewStack Fake.DiamondSword count) ;;
     ret (s, true)) (Fake.counting 0).
Proof.
  cbv zeta. split; [reflexivity |]. split; [reflexivity |].
  exact (proj2 (proj2 (proj2
    (pipeline_two_passes
       (mkEntry "item" "diamond_sword" 1
          [mkFunction "enchant_randomly" zeroValue zeroValue "" [];
           mkFunction "set_count" (mkValue 1 3) zeroValue "" []])
       Fake.DiamondSword eq_refl eq_refl)))
    _ _ eq_refl eq_refl eq_refl (Fake.counting 0)).
Defined.

(** C2 as stated fails.  With [enchant_randomly] declared before
    [set_count {1..3}] on a sword and the source handing out 0, 1, ...,
    the first draw serves [set_count] (bound 3, count 1) and the second
    [enchant_randomly] (bound 6, the second compatible enchantment).  In
    declared order the first draw would pick the enchantment (the first
    compatible one) and the second the count (2). *)
Lemma set_count_draws_before_declared_turn :
  let f := mkFunction "enchant_randomly" zeroValue zeroValue "" [] in
  let sc := mkFunction "set_count" (mkValue 1 3) zeroValue "" [] in
  let e := mkEntry "item" "diamond_sword" 1 [f; sc] in
  let g := Fake.counting 0 in
  (exists g', produce e g
     = Some ((Fake.mkStack Fake.DiamondSword 1 [(Knockback, 1)], true), g') /\
     asked g' = [3; 6]) /\
  (exists g', Fake.pipelineAsSpecified [f; sc] (NewStack Fake.DiamondSword 1) g
     = Some (Fake.mkStack Fake.DiamondSword 2 [(Sharpness, 1)], g') /\
     asked g' = [6; 3]) /\
  produce e g <>
  (s <- Fake.pipelineAsSpecified [f; sc] (NewStack Fake.DiamondSword 1) ;;
   ret (s, true)) g.
Proof.
  cbv zeta. split; [| split].
  - eexists. split; [vm_compute; reflexivity | reflexivity].
  - eexists. split; [vm_compute; reflexivity | reflexivity].
  - vm_compute. intros H. discriminate H.
Qed.

(* ===================================================================== *)
(** ** enchant_with_levels                                                *)
(* ===================================================================== *)

Section EnchantWithLevels.

Context {L : ItemLibrary}.

Lemma enchantWithLevelsLoop_no_levels (encs : list EnchantmentType)
    (s : Stack) (levels : Z) (g : Source) :
  levels <= 0 -> enchantWithLevelsLoop encs s levels g = Some (s, g).
Proof.
  intros H. induction encs as [| enc encs IH]; cbn [enchantWithLevelsLoop].
  - reflexivity.
  - destruct (Z.ltb_spec 0 levels); [lia |].
    destruct (CompatibleWithItem enc (StackItem s)); exact IH.
Qed.

Lemma enchantWithLevelsLoop_first (encs : list EnchantmentType)
    (s : Stack) (levels : Z) (g : Source) :
  0 < levels ->
  enchantWithLevelsLoop encs s levels g =
  match filter (fun enc => CompatibleWithItem enc (StackItem s)) encs with
  | [] => Some (s, g)
  | enc :: _ =>
      if ((15 <? levels) && (1 <? MaxLevel enc))%bool then
        (r <- Intn (MaxLevel enc) ;;
         ret (WithEnchantments s (NewEnchantment enc (wrap (r + 1))))) g
      else Some (WithEnchantments s (NewEnchantment enc 1), g)
  end.
Proof.
  intros H. induction encs as [| enc encs IH];
    cbn [enchantWithLevelsLoop filter].
  - reflexivity.
  - destruct (CompatibleWithItem enc (StackItem s)); [| exact IH].
    destruct (Z.ltb_spec 0 levels); [| lia].
    destruct ((15 <? levels) && (1 <? MaxLevel enc))%bool; reflexivity.
Qed.

(** C3, as amended.  [applyEnchantWithLevels] returns the stack unchanged,
    without a draw, when [levels <= 0] or when no enchantment of the
    catalogue is compatible with the stack's item.  When [levels > 0] it
    attaches the first compatible enchantment in catalogue order: at level
    1, without a draw, when [levels <= 15] or the enchantment has no level
    above 1; when [levels > 15] and its maximum level exceeds 1, at level
    [r + 1] for one draw [r] of [rand.Intn(max)], a level of [[1, max]]. *)
Theorem applyEnchantWithLevels_cases (s : Stack) (levels : Z) (g : Source) :
  (levels <= 0 -> applyEnchantWithLevels s levels g = Some (s, g)) /\
  (compatible s = [] -> applyEnchantWithLevels s levels g = Some (s, g)) /\
  (forall enc rest, compatible s = enc :: rest -> 0 < levels ->
     (levels <= 15 \/ MaxLevel enc <= 1 ->
      applyEnchantWithLevels s levels g
      = Some (WithEnchantments s (NewEnchantment enc 1), g)) /\
     (15 < levels -> 1 < MaxLevel enc -> inRange (MaxLevel enc) ->
      exists lvl g',
        applyEnchantWithLevels s levels g
        = Some (WithEnchantments s (NewEnchantment enc lvl), g') /\
        lvl = raw g (pos g) mod MaxLevel enc + 1 /\
        1 <= lvl <= MaxLevel enc /\ pos g' = S (pos g))).
Proof.
  unfold applyEnchantWithLevels, compatible.
  split; [apply enchantWithLevelsLoop_no_levels |].
  split.
  - intros Hnone. destruct (Z.ltb_spec 0 levels).
    + rewrite enchantWithLevelsLoop_first by assumption. rewrite Hnone. reflexivity.
    + apply enchantWithLevelsLoop_no_levels. assumption.
  - intros enc rest Hfirst Hpos. split.
    + intros Hlow. rewrite enchantWithLevelsLoop_first by assumption.
      rewrite Hfirst.
      destruct (Z.ltb_spec 15 levels); destruct (Z.ltb_spec 1 (MaxLevel enc));
        cbn [andb]; try reflexivity. lia.
    + intros Hhigh Hmax Hint. rewrite enchantWithLevelsLoop_first by assumption.
      rewrite Hfirst.
      destruct (Z.ltb_spec 15 levels); [| lia].
      destruct (Z.ltb_spec 1 (MaxLevel enc)); [| lia]. cbn [andb].
      unfold bind. rewrite Intn_positive by lia. unfold ret.
      pose proof (Z.mod_pos_bound (raw g (pos g)) (MaxLevel enc)) as B.
      rewrite wrap_inRange by (unfold inRange, minInt, maxInt in *; lia).
      eexists; eexists. split; [reflexivity |].
      split; [reflexivity |]. split; [lia | reflexivity].
Qed.

End EnchantWithLevels.

Lemma applyEnchantWithLevels_cases_witness :
  let s := Fake.mkStack Fake.DiamondSword 1 [] in
  let g := Fake.counting 3 in
  compatible s = Sharpness :: [Knockback; FireAspect; Unbreaking; Mending;
                               CurseOfVanishing] /\
  0 < 30 /\ 15 < 30 /\ 1 < MaxLevel Sharpness /\ inRange (MaxLevel Sharpness) /\
  exists lvl g',
    applyEnchantWithLevels s 30 g
    = Some (WithEnchantments s (NewEnchantment Sharpness lvl), g') /\
    lvl = raw g (pos g) mod MaxLevel Sharpness + 1 /\
    1 <= lvl <= MaxLevel Sharpness /\ pos g' = S (pos g).
Proof.
  cbv zeta.
  assert (H30 : 0 < 30) by lia.
  assert (H15 : 15 < 30) by lia.
  assert (Hmax : 1 < MaxLevel Sharpness) by (simpl; lia).
  assert (Hint : inRange (MaxLevel Sharpness))
    by (unfold inRange, minInt, maxInt; simpl; lia).
  split; [reflexivity |]. split; [exact H30 |]. split; [exact H15 |].
  split; [exact Hmax |]. split; [exact Hint |].
  exact (proj2 (proj2 (proj2
    (applyEnchantWithLevels_cases
       (Fake.mkStack Fake.DiamondSword 1 []) 30 (Fake.counting 3)))
    Sharpness _ eq_refl H30) H15 Hmax Hint).
Defined.

(** C3 as stated fails for [levels <= 0]: a sword has compatible
    enchantments, [Sharpness] first, yet with [levels = 0] nothing is
    attached and the stack comes back as it was. *)
Lemma enchant_with_zero_levels_attaches_nothing :
  let s := Fake.mkStack Fake.DiamondSword 1 [] in
  let g := Fake.counting 0 in
  hd_error (compatible s) = Some Sharpness /\
  applyEnchantWithLevels s 0 g = Some (s, g) /\
  applyEnchantWithLevels s 0 g
  <> Some (WithEnchantments s (NewEnchantment Sharpness 1), g).
Proof.
  cbv zeta. split; [reflexivity |]. split; [reflexivity |].
  vm_compute. intros H. discriminate H.
Qed.

(* ===================================================================== *)
(** ** Generation of a table                                              *)
(* ===================================================================== *)

Section Generation.

Context {L : ItemLibrary}.


Lemma after_after (a b : list Stack) (r : option (list Stack * Source)) :
  after a (after b r) = after (a ++ b) r.
Proof. destruct r as [[out g] |]; simpl; [rewrite app_assoc |]; reflexivity. Qed.

Lemma rollLoop_after (p : Pool) (n : nat) (acc : list Stack) (g : Source) :
  rollLoop p n acc g = after acc (rollLoop p n [] g).
Proof.
  revert acc g. induction n as [| n IH]; intros acc g; cbn [rollLoop].
  - unfold ret, after. rewrite app_nil_r. reflexivity.
  - unfold bind. destruct (rollEntry p g) as [[[s ok] g1] |]; [| reflexivity].
    rewrite (IH (if ok then acc ++ [s] else acc)).
    rewrite (IH (if ok then [] ++ [s] else [])).
    rewrite after_after. destruct ok; [reflexivity |].
    rewrite app_nil_r. reflexivity.
Qed.

Lemma generatePool_after (p : Pool) (acc : list Stack) (g : Source) :
  generatePool p acc g = after acc (generatePool p [] g).
Proof.
  unfold generatePool, bind.
  destruct (RollValue (Rolls p) g) as [[rolls g1] |]; [| reflexivity].
  apply rollLoop_after.
Qed.

Lemma generatePools_after (ps : list Pool) (acc : list Stack) (g : Source) :
  generatePools ps acc g = after acc (generatePools ps [] g).
Proof.
  revert acc g. induction ps as [| p ps IH]; intros acc g; cbn [generatePools].
  - unfold ret, after. rewrite app_nil_r. reflexivity.
  - unfold bind. rewrite (generatePool_after p acc).
    destruct (generatePool p [] g) as [[out g1] |]; [| reflexivity].
    cbn [after]. rewrite (IH (acc ++ out)), (IH out).
    rewrite after_after. reflexivity.
Qed.


(** *** Every step of the pipeline returns when its ranges can be rolled *)






Lemma countLoop_returns (fs : list Function) (count : Z) (g : Source) :
  Forall functionRollable fs -> exists c g', countLoop fs count g = Some (c, g').
Proof.
  intros H. revert count g. induction H as [| f fs Hf _ IH]; intros count g;
    cbn [countLoop].
  - returned.
  - destruct (String.eqb_spec (fn_Function f) "set_count") as [E | _];
      [| apply IH].
    unfold bind. destruct Hf as (Hc & _).
    destruct (RollValue_rollable (fn_Count f) g (Hc E)) as (c & g1 & R).
    rewrite R. apply IH.
Qed.


End Generation.

Section Pools.

Context {L : ItemLibrary}.





End Pools.





(* ===================================================================== *)
(** ** Parsing and loading                                                *)
(* ===================================================================== *)



(* ===================================================================== *)
(** ** The table is only read                                             *)
(* ===================================================================== *)

Lemma skipn_nth_error {A} (l : list A) (i : nat) (a : A) :
  nth_error l i = Some a -> skipn i l = a :: skipn (S i) l.
Proof.
  revert i. induction l as [| x l IH]; intros [| i] H; simpl in H.
  - discriminate.
  - discriminate.
  - inversion H; subst. reflexivity.
  - cbn [skipn]. rewrite (IH i H). reflexivity.
Qed.

Lemma skipn_past_end {A} (l : list A) (i : nat) :
  nth_error l i = None -> skipn i l = [].
Proof.
  intros H. apply skipn_all2. apply nth_error_None. assumption.
Qed.

Lemma updateAt_same {A} (l : list A) (i : nat) (f : A -> A) (a : A) :
  nth_error l i = Some a -> f a = a -> Frame.updateAt l i f = l.
Proof.
  intros H Hf. unfold Frame.updateAt. rewrite H, Hf.
  rewrite <- (skipn_nth_error l i a H). apply firstn_skipn.
Qed.

Lemma storeEntries_same (t : LootTable) (pi : nat) (p : Pool) :
  nth_error (Pools t) pi = Some p -> Frame.storeEntries t pi (Entries p) = t.
Proof.
  intros H. unfold Frame.storeEntries.
  rewrite (updateAt_same (Pools t) pi _ p H) by (destruct p; reflexivity).
  destruct t; reflexivity.
Qed.

Lemma sumWeightsAt_reads (arr : list Entry) (i n : nat) (total : Z) :
  Frame.sumWeightsAt arr i n total
  = (arr, sumWeights (firstn n (skipn i arr)) total).
Proof.
  revert i total. induction n as [| n IH]; intros i total;
    cbn [Frame.sumWeightsAt].
  - reflexivity.
  - destruct (nth_error arr i) as [elem |] eqn:E.
    + rewrite IH, (skipn_nth_error arr i elem E). reflexivity.
    + rewrite (skipn_past_end arr i E). reflexivity.
Qed.

Section ReadOnly.

Context {L : ItemLibrary}.

Lemma rollEntryAt_rollEntry (t : LootTable) (pi : nat) (p : Pool) (g : Source) :
  nth_error (Pools t) pi = Some p ->
  Frame.rollEntryAt t pi g = withStore t (rollEntry p g).
Proof.
  intros H. unfold Frame.rollEntryAt. rewrite H, sumWeightsAt_reads.
  cbn [skipn]. rewrite firstn_all, (storeEntries_same t pi p H).
  rewrite rollEntry_unfold.
  destruct (sumWeights (Entries p) 0 <=? 0); [reflexivity |].
  unfold bind.
  destruct (Intn (sumWeights (Entries p) 0) g) as [[r g1] |]; [| reflexivity].
  destruct (walk (Entries p) 0 r g1) as [[res g2] |]; reflexivity.
Qed.

Lemma rollLoopAt_rollLoop (t : LootTable) (pi : nat) (p : Pool) (n : nat)
    (stacks : list Stack) (g : Source) :
  nth_error (Pools t) pi = Some p ->
  Frame.rollLoopAt t pi n stacks g = withStore t (rollLoop p n stacks g).
Proof.
  intros H. revert stacks g. induction n as [| n IH]; intros stacks g;
    cbn [Frame.rollLoopAt rollLoop].
  - reflexivity.
  - unfold bind. rewrite (rollEntryAt_rollEntry t pi p g H).
    destruct (rollEntry p g) as [[[s ok] g1] |]; [| reflexivity].
    cbn [withStore]. apply IH.
Qed.

Lemma generateAt_generatePools (t : LootTable) (pi n : nat)
    (stacks : list Stack) (g : Source) :
  Frame.generateAt t pi n stacks g
  = withStore t (generatePools (firstn n (skipn pi (Pools t))) stacks g).
Proof.
  revert pi stacks g. induction n as [| n IH]; intros pi stacks g;
    cbn [Frame.generateAt].
  - reflexivity.
  - destruct (nth_error (Pools t) pi) as [p |] eqn:E.
    + rewrite (skipn_nth_error (Pools t) pi p E).
      cbn [firstn generatePools]. unfold generatePool, bind.
      destruct (RollValue (Rolls p) g) as [[rolls g1] |]; [| reflexivity].
      rewrite (rollLoopAt_rollLoop t pi p _ stacks g1 E).
      destruct (rollLoop p (Z.to_nat rolls) stacks g1) as [[out g2] |];
        [| reflexivity].
      cbn [withStore]. apply IH.
    + rewrite (skipn_past_end (Pools t) pi E). reflexivity.
Qed.

(** C9.  Run over the store that holds the table, [Generate] returns the
    stacks the value-level [Generate] computes, draws the same numbers,
    and leaves the store holding the table it started with: pools,
    entries, weights (a weight of 0 stays 0), ranges and functions. *)
Theorem Generate_leaves_table (t : LootTable) (g : Source) :
  Frame.GenerateWithStore t g = withStore t (LootTable_Generate t g).
Proof.
  unfold Frame.GenerateWithStore, LootTable_Generate.
  rewrite generateAt_generatePools. cbn [skipn]. rewrite firstn_all.
  reflexivity.
Qed.

End ReadOnly.

(* ===================================================================== *)
(** ** Names                                                              *)
(* ===================================================================== *)

Lemma stripPrefix_append (prefix s : string) :
  stripPrefix prefix (String.append prefix s) = Some s.
Proof.
  induction prefix as [| a prefix IH]; simpl; [reflexivity |].
  rewrite Ascii.eqb_refl. exact IH.
Qed.

Lemma TrimPrefix_append (prefix s : string) :
  TrimPrefix (String.append prefix s) prefix = s.
Proof. unfold TrimPrefix. rewrite stripPrefix_append. reflexivity. Qed.

Lemma TrimPrefix_absent (prefix s : string) :
  HasPrefix s prefix = false -> TrimPrefix s prefix = s.
Proof.
  unfold HasPrefix, TrimPrefix.
  destruct (stripPrefix prefix s); [discriminate | reflexivity].
Qed.

Lemma ToLower_caseVariant (a b : string) :
  caseVariant a b -> ToLower a = ToLower b.
Proof.
  induction 1 as [| c c' s s' Hc _ IH]; simpl; [reflexivity |].
  rewrite Hc, IH. reflexivity.
Qed.

Section Names.

Context {L : ItemLibrary}.





End Names.



(* ===================================================================== *)
(** ** More on rolling and the pipeline                                   *)
(* ===================================================================== *)

(** X1.  Every value of a range can be rolled: with [Max > Min] and a
    width that is an [int], [RollValue] returns [x] of [[Min, Max]] on
    any source whose next number is congruent to [x - Min] modulo the
    width [Max - Min + 1], and there is such a source. *)
Theorem RollValue_reaches (v : Value) (x : Z) :
  inRange (Min v) -> inRange (Max v) ->
  Min v < Max v -> Max v - Min v < maxInt ->
  Min v <= x <= Max v ->
  (forall g, raw g (pos g) mod (Max v - Min v + 1) = x - Min v ->
     RollValue v g
     = Some (x, mkSource (raw g) (S (pos g)) (asked g ++ [Max v - Min v + 1]))) /\
  (exists g g', RollValue v g = Some (x, g')).
Proof.
  intros Hmin Hmax Hlt Hw Hx.
  assert (Hall : forall g, raw g (pos g) mod (Max v - Min v + 1) = x - Min v ->
     RollValue v g
     = Some (x, mkSource (raw g) (S (pos g)) (asked g ++ [Max v - Min v + 1]))).
  { intros g Hraw. unfold RollValue.
    destruct (Z.leb_spec (Max v) (Min v)); [lia |].
    unfold bind. rewrite RollValue_width by assumption.
    rewrite Intn_positive by lia. unfold ret. rewrite Hraw.
    rewrite wrap_inRange by (unfold inRange, minInt, maxInt in *; lia).
    do 2 f_equal. lia. }
  split; [exact Hall |].
  exists (mkSource (fun _ => x - Min v) 0 []). eexists. apply Hall.
  simpl. apply Z.mod_small. lia.
Qed.

Lemma RollValue_reaches_witness :
  let v := mkValue 2 5 in
  inRange (Min v) /\ inRange (Max v) /\ Min v < Max v /\
  Max v - Min v < maxInt /\ Min v <= 4 <= Max v /\
  exists g g', RollValue v g = Some (4, g').
Proof.
  cbv zeta.
  assert (Hmin : inRange (Min (mkValue 2 5)))
    by (unfold inRange, minInt, maxInt; simpl; lia).
  assert (Hmax : inRange (Max (mkValue 2 5)))
    by (unfold inRange, minInt, maxInt; simpl; lia).
  assert (Hlt : Min (mkValue 2 5) < Max (mkValue 2 5)) by (simpl; lia).
  assert (Hw : Max (mkValue 2 5) - Min (mkValue 2 5) < maxInt)
    by (unfold maxInt; simpl; lia).
  assert (Hx : Min (mkValue 2 5) <= 4 <= Max (mkValue 2 5)) by (simpl; lia).
  split; [exact Hmin |]. split; [exact Hmax |]. split; [exact Hlt |].
  split; [exact Hw |]. split; [exact Hx |].
  exact (proj2 (RollValue_reaches (mkValue 2 5) 4 Hmin Hmax Hlt Hw Hx)).
Defined.

Section MorePipeline.

Context {L : ItemLibrary}.

Lemma compatible_sound (s : Stack) (enc : EnchantmentType) :
  In enc (compatible s) ->
  In enc getAllEnchantments /\ CompatibleWithItem enc (StackItem s) = true.
Proof. unfold compatible. intros H. apply filter_In in H. exact H. Qed.

(** X2.  [applyRandomEnchant] leaves the stack alone, without a draw,
    when no enchantment of the catalogue is compatible with its item;
    otherwise it makes one draw below the number of compatible
    enchantments and attaches, at level 1, the one at that index: an
    enchantment of the catalogue that is compatible with the item. *)
Theorem applyRandomEnchant_picks_compatible (s : Stack) (g : Source) :
  (compatible s = [] -> applyRandomEnchant s g = Some (s, g)) /\
  (compatible s <> [] ->
   exists enc g',
     applyRandomEnchant s g
     = Some (WithEnchantments s (NewEnchantment enc 1), g') /\
     nth_error (compatible s)
       (Z.to_nat (raw g (pos g) mod Z.of_nat (List.length (compatible s))))
     = Some enc /\
     In enc getAllEnchantments /\
     CompatibleWithItem enc (StackItem s) = true /\
     pos g' = S (pos g)).
Proof.
  split.
  - intros H. unfold applyRandomEnchant. rewrite H. reflexivity.
  - intros H. unfold applyRandomEnchant.
    assert (Hlen : 0 < Z.of_nat (List.length (compatible s)))
      by (destruct (compatible s); [congruence | simpl List.length; lia]).
    destruct (Z.ltb_spec 0 (Z.of_nat (List.length (compatible s)))); [| lia].
    unfold bind. rewrite Intn_positive by assumption.
    pose proof (Z.mod_pos_bound (raw g (pos g))
                  (Z.of_nat (List.length (compatible s))) Hlen) as B.
    destruct (nth_error (compatible s)
                (Z.to_nat (raw g (pos g) mod Z.of_nat (List.length (compatible s)))))
      as [enc |] eqn:E.
    + exists enc. eexists. split; [reflexivity |]. split; [reflexivity |].
      pose proof (compatible_sound s enc (nth_error_In _ _ E)) as [H1 H2].
      split; [exact H1 |]. split; [exact H2 | reflexivity].
    + apply nth_error_None in E. lia.
Qed.

Lemma countLoop_app (fs1 fs2 : list Function) (count : Z) (g : Source) :
  countLoop (fs1 ++ fs2) count g = (c <- countLoop fs1 count ;; countLoop fs2 c) g.
Proof.
  revert count g. induction fs1 as [| f fs1 IH]; intros count g.
  - reflexivity.
  - cbn [app countLoop].
    destruct (String.eqb (fn_Function f) "set_count").
    + rewrite bind_assoc. apply bind_ext. intros; apply IH.
    + apply IH.
Qed.

Lemma countLoop_no_set_count (fs : list Function) (count : Z) (g : Source) :
  Forall (fun f => isSetCount f = false) fs -> countLoop fs count g = Some (count, g).
Proof.
  induction 1 as [| f fs Hf _ IH]; cbn [countLoop]; [reflexivity |].
  unfold isSetCount in Hf. rewrite Hf. exact IH.
Qed.

(** X3.  The last [set_count] decides the count.  When no [set_count]
    follows [sc], the first loop ends with the roll of [sc]'s range,
    made after the rolls of the earlier ones; if that range is fixed and
    the earlier ranges can be rolled, the count is its [Min].  Without
    any [set_count] the count stays what it was (1 in [rollEntry]) and
    nothing is drawn. *)
Theorem last_set_count_wins (fs1 fs2 : list Function) (sc : Function)
    (count : Z) (g : Source) :
  isSetCount sc = true ->
  Forall (fun f => isSetCount f = false) fs2 ->
  countLoop (fs1 ++ sc :: fs2) count g
  = (_ <- countLoop fs1 count ;; RollValue (fn_Count sc)) g /\
  (Max (fn_Count sc) <= Min (fn_Count sc) ->
   Forall functionRollable fs1 ->
   exists g', countLoop (fs1 ++ sc :: fs2) count g
              = Some (Min (fn_Count sc), g')) /\
  countLoop fs2 count g = Some (count, g).
Proof.
  intros Hsc Hfs2.
  assert (Heq : countLoop (fs1 ++ sc :: fs2) count g
                = (_ <- countLoop fs1 count ;; RollValue (fn_Count sc)) g).
  { rewrite countLoop_app. apply bind_ext. intros c g1.
    cbn [countLoop]. unfold isSetCount in Hsc. rewrite Hsc.
    unfold bind. destruct (RollValue (fn_Count sc) g1) as [[c' g2] |];
      [| reflexivity].
    apply countLoop_no_set_count. assumption. }
  split; [exact Heq |]. split.
  - intros Hfixed Hroll. rewrite Heq. unfold bind.
    destruct (countLoop_returns fs1 count g Hroll) as (c & g1 & E).
    rewrite E. exists g1. apply RollValue_fixed. assumption.
  - apply countLoop_no_set_count. assumption.
Qed.

Lemma applyFunction_unknown (f : Function) (s : Stack) (g : Source) :
  knownFunction (fn_Function f) = false -> applyFunction f s g = Some (s, g).
Proof.
  unfold knownFunction, applyFunction. intros H.
  repeat (apply Bool.orb_false_iff in H; destruct H as [H ?]).
  destruct (String.eqb (fn_Function f) "enchant_randomly"); [discriminate |].
  destruct (String.eqb (fn_Function f) "enchant_with_levels"); [discriminate |].
  destruct (String.eqb (fn_Function f) "specific_enchants"); [discriminate |].
  destruct (String.eqb (fn_Function f) "set_potion"); [discriminate |].
  reflexivity.
Qed.

Lemma applyLoop_skip (fs1 fs2 : list Function) (f : Function) (s : Stack)
    (g : Source) :
  knownFunction (fn_Function f) = false ->
  applyLoop (fs1 ++ f :: fs2) s g = applyLoop (fs1 ++ fs2) s g.
Proof.
  intros Hf. rewrite !applyLoop_app. apply bind_ext. intros s1 g1.
  cbn [applyLoop]. unfold bind. rewrite applyFunction_unknown by assumption.
  reflexivity.
Qed.

(** X4.  A function whose name is none of [set_count],
    [enchant_randomly], [enchant_with_levels], [specific_enchants] and
    [set_potion] is ignored: the entry produces the same stack, with the
    same draws, as the entry without it. *)
Theorem unknown_function_ignored (e : Entry) (fs1 fs2 : list Function)
    (f : Function) (g : Source) :
  knownFunction (fn_Function f) = false ->
  Functions e = fs1 ++ f :: fs2 ->
  produce e g = produce (mkEntry (Type_ e) (Name e) (Weight e) (fs1 ++ fs2)) g.
Proof.
  intros Hf Hfs.
  assert (Hnsc : String.eqb (fn_Function f) "set_count" = false).
  { unfold knownFunction in Hf.
    repeat (apply Bool.orb_false_iff in Hf; destruct Hf as [Hf ?]).
    assumption. }
  unfold produce. cbn [Type_ Name Functions]. rewrite Hfs.
  destruct (negb (String.eqb (Type_ e) "item")); [reflexivity |].
  cbv zeta.
  destruct (ItemByName (String.append "minecraft:" (TrimPrefix (Name e) "minecraft:")) 0)
    as [it |]; [| reflexivity].
  unfold bind at 1 3.
  rewrite !countLoop_app. unfold bind at 1 3.
  destruct (countLoop fs1 1 g) as [[c g1] |]; [| reflexivity].
  cbn [countLoop]. rewrite Hnsc.
  destruct (countLoop fs2 c g1) as [[c' g2] |]; [| reflexivity].
  unfold bind. rewrite (applyLoop_skip fs1 fs2 f _ g2 Hf). reflexivity.
Qed.

End MorePipeline.

Lemma applyRandomEnchant_picks_compatible_witness :
  let s := Fake.mkStack Fake.DiamondSword 1 [] in
  let g := Fake.counting 4 in
  compatible s <> [] /\
  exists enc g',
    applyRandomEnchant s g
    = Some (WithEnchantments s (NewEnchantment enc 1), g') /\
    nth_error (compatible s)
      (Z.to_nat (raw g (pos g) mod Z.of_nat (List.length (compatible s))))
    = Some enc /\
    In enc getAllEnchantments /\
    CompatibleWithItem enc (StackItem s) = true /\
    pos g' = S (pos g).
Proof.
  cbv zeta.
  assert (H : compatible (Fake.mkStack Fake.DiamondSword 1 []) <> [])
    by (vm_compute; intros E; discriminate E).
  split; [exact H |].
  exact (proj2 (applyRandomEnchant_picks_compatible
                  (Fake.mkStack Fake.DiamondSword 1 []) (Fake.counting 4)) H).
Defined.

Lemma last_set_count_wins_witness :
  let first := mkFunction "set_count" (mkValue 1 4) zeroValue "" [] in
  let sc := mkFunction "set_count" (mkValue 3 3) zeroValue "" [] in
  let other := mkFunction "enchant_randomly" zeroValue zeroValue "" [] in
  isSetCount sc = true /\
  Forall (fun f => isSetCount f = false) [other] /\
  Max (fn_Count sc) <= Min (fn_Count sc) /\
  Forall functionRollable [first] /\
  exists g', countLoop ([first] ++ sc :: [other]) 1 (Fake.counting 0)
             = Some (Min (fn_Count sc), g').
Proof.
  cbv zeta.
  assert (H2 : Forall (fun f => isSetCount f = false)
                 [mkFunction "enchant_randomly" zeroValue zeroValue "" []])
    by (constructor; [reflexivity | constructor]).
  assert (H3 : Max (fn_Count (mkFunction "set_count" (mkValue 3 3) zeroValue "" []))
               <= Min (fn_Count (mkFunction "set_count" (mkValue 3 3) zeroValue "" [])))
    by (simpl; lia).
  assert (H4 : Forall functionRollable
                 [mkFunction "set_count" (mkValue 1 4) zeroValue "" []]).
  { constructor; [| constructor]. split; [| split].
    - intros _. right. unfold inRange, minInt, maxInt. simpl. lia.
    - intros H. discriminate H.
    - intros H. discriminate H. }
  split; [reflexivity |]. split; [exact H2 |]. split; [exact H3 |].
  split; [exact H4 |].
  exact (proj1 (proj2 (last_set_count_wins
                         [mkFunction "set_count" (mkValue 1 4) zeroValue "" []]
                         [mkFunction "enchant_randomly" zeroValue zeroValue "" []]
                         (mkFunction "set_count" (mkValue 3 3) zeroValue "" [])
                         1 (Fake.counting 0) eq_refl H2)) H3 H4).
Defined.

Lemma unknown_function_ignored_witness :
  let f := mkFunction "set_damage" zeroValue zeroValue "" [] in
  let sc := mkFunction "set_count" (mkValue 1 4) zeroValue "" [] in
  let e := mkEntry "item" "stick" 1 [sc; f] in
  knownFunction (fn_Function f) = false /\
  Functions e = [sc] ++ f :: [] /\
  produce e (Fake.counting 2)
  = produce (mkEntry (Type_ e) (Name e) (Weight e) ([sc] ++ [])) (Fake.counting 2).
Proof.
  cbv zeta. split; [reflexivity |]. split; [reflexivity |].
  exact (unknown_function_ignored
           (mkEntry "item" "stick" 1
              [mkFunction "set_count" (mkValue 1 4) zeroValue "" [];
               mkFunction "set_damage" zeroValue zeroValue "" []])
           [mkFunction "set_count" (mkValue 1 4) zeroValue "" []] []
           (mkFunction "set_damage" zeroValue zeroValue "" [])
           (Fake.counting 2) eq_refl eq_refl).
Defined.

Section Enchants.

Context {L : ItemLibrary}.


(** X6.  However many [set_potion] functions an entry declares, a stack
    whose item is neither a potion nor a splash potion comes out of them
    as it went in, and nothing is drawn. *)
Theorem set_potion_leaves_other_items (fs : list Function) (s : Stack)
    (g : Source) :
  Forall (fun f => fn_Function f = "set_potion") fs ->
  isPotion (StackItem s) = false ->
  isSplashPotion (StackItem s) = false ->
  applyLoop fs s g = Some (s, g).
Proof.
  intros H Hp Hsp. induction H as [| f fs Hf _ IH]; cbn [applyLoop];
    [reflexivity |].
  unfold bind, applyFunction. rewrite Hf. cbn.
  unfold ret, setPotion. rewrite Hp, Hsp.
  destruct (potionByName (fn_ID f)); exact IH.
Qed.

End Enchants.


Lemma set_potion_leaves_other_items_witness :
  let fs := [mkFunction "set_potion" zeroValue zeroValue "healing" [];
             mkFunction "set_potion" zeroValue zeroValue "nothing" []] in
  let s := Fake.mkStack Fake.Stick 4 [] in
  Forall (fun f => fn_Function f = "set_potion") fs /\
  isPotion (StackItem s) = false /\ isSplashPotion (StackItem s) = false /\
  applyLoop fs s (Fake.counting 0) = Some (s, Fake.counting 0).
Proof.
  cbv zeta.
  assert (H : Forall (fun f => fn_Function f = "set_potion")
                [mkFunction "set_potion" zeroValue zeroValue "healing" [];
                 mkFunction "set_potion" zeroValue zeroValue "nothing" []])
    by (repeat constructor).
  split; [exact H |]. split; [reflexivity |]. split; [reflexivity |].
  exact (set_potion_leaves_other_items _ (Fake.mkStack Fake.Stick 4 [])
           (Fake.counting 0) H eq_refl eq_refl).
Defined.

(* ===================================================================== *)
(** ** The registries                                                     *)
(* ===================================================================== *)

Lemma stripPrefix_ToLower (prefix s rest : string) :
  stripPrefix prefix s = Some rest ->
  stripPrefix (ToLower prefix) (ToLower s) = Some (ToLower rest).
Proof.
  revert s. induction prefix as [| a prefix IH]; intros s H; simpl in *.
  - inversion H; reflexivity.
  - destruct s as [| b s]; [discriminate |]. simpl.
    destruct (Ascii.eqb_spec a b) as [E | E]; [| discriminate].
    subst b. rewrite Ascii.eqb_refl. apply IH. assumption.
Qed.

Lemma caseVariant_no_namespace (n k : string) :
  caseVariant n k -> ToLower k = k -> HasPrefix k "minecraft:" = false ->
  HasPrefix n "minecraft:" = false.
Proof.
  intros Hcv Hk Hp. unfold HasPrefix in *.
  destruct (stripPrefix "minecraft:" n) as [rest |] eqn:E; [| reflexivity].
  apply stripPrefix_ToLower in E.
  rewrite (ToLower_caseVariant n k Hcv), Hk in E.
  change (ToLower "minecraft:") with "minecraft:" in E.
  rewrite E in Hp. discriminate Hp.
Qed.

Lemma lookup_registered {A} (table : list (string * A)) (k n : string) (v : A) :
  ToLower k = k -> HasPrefix k "minecraft:" = false ->
  lookup table k = Some v -> caseVariant n k ->
  lookup table (ToLower (TrimPrefix n "minecraft:")) = Some v /\
  lookup table (ToLower (TrimPrefix (String.append "minecraft:" n) "minecraft:"))
  = Some v.
Proof.
  intros Hk Hp Hl Hcv.
  rewrite TrimPrefix_append.
  rewrite (TrimPrefix_absent _ _ (caseVariant_no_namespace n k Hcv Hk Hp)).
  rewrite (ToLower_caseVariant n k Hcv), Hk. split; exact Hl.
Qed.

Lemma table_resolves {A} (table sub : list (string * A)) :
  Forall (fun kv => ToLower (fst kv) = fst kv /\
                    HasPrefix (fst kv) "minecraft:" = false /\
                    lookup table (fst kv) = Some (snd kv)) sub ->
  Forall (fun kv => forall n, caseVariant n (fst kv) ->
            lookup table (ToLower (TrimPrefix n "minecraft:")) = Some (snd kv) /\
            lookup table
              (ToLower (TrimPrefix (String.append "minecraft:" n) "minecraft:"))
            = Some (snd kv)) sub.
Proof.
  apply Forall_impl. intros kv (Hk & Hp & Hl) n Hcv.
  apply (lookup_registered table (fst kv) n (snd kv) Hk Hp Hl Hcv).
Qed.

Lemma enchantmentTable_resolves :
  Forall (fun kv => forall n, caseVariant n (fst kv) ->
            enchantmentByName n = Some (snd kv) /\
            enchantmentByName (String.append "minecraft:" n) = Some (snd kv))
    enchantmentTable.
Proof.
  unfold enchantmentByName. apply table_resolves.
  unfold enchantmentTable. registry_keys.
Qed.

Lemma potionTable_resolves :
  Forall (fun kv => forall n, caseVariant n (fst kv) ->
            potionByName n = Some (snd kv) /\
            potionByName (String.append "minecraft:" n) = Some (snd kv))
    potionTable.
Proof.
  unfold potionByName. apply table_resolves.
  unfold potionTable. registry_keys.
Qed.

(** X7.  Every name written in the two registries resolves to the entry
    written beside it, in any letter case and with or without the
    namespace "minecraft:" in front; and the enchantments the registry
    names are those of the catalogue [getAllEnchantments], in its order. *)
Theorem registered_names_resolve (k n : string) :
  caseVariant n k ->
  (forall enc, In (k, enc) enchantmentTable ->
     enchantmentByName n = Some enc /\
     enchantmentByName (String.append "minecraft:" n) = Some enc) /\
  (forall pot, In (k, pot) potionTable ->
     potionByName n = Some pot /\
     potionByName (String.append "minecraft:" n) = Some pot) /\
  map snd enchantmentTable = getAllEnchantments.
Proof.
  intros Hcv. split; [| split].
  - intros enc Hin.
    exact (proj1 (Forall_forall _ _) enchantmentTable_resolves (k, enc) Hin n Hcv).
  - intros pot Hin.
    exact (proj1 (Forall_forall _ _) potionTable_resolves (k, pot) Hin n Hcv).
  - reflexivity.
Qed.

Lemma registered_names_resolve_witness :
  caseVariant "Fire_Aspect" "fire_aspect" /\
  In ("fire_aspect", FireAspect) enchantmentTable /\
  enchantmentByName "Fire_Aspect" = Some FireAspect /\
  enchantmentByName (String.append "minecraft:" "Fire_Aspect") = Some FireAspect.
Proof.
  assert (Hcv : caseVariant "Fire_Aspect" "fire_aspect")
    by (repeat (constructor; [reflexivity |]); constructor).
  assert (Hin : In ("fire_aspect", FireAspect) enchantmentTable)
    by (unfold enchantmentTable; simpl; tauto).
  split; [exact Hcv |]. split; [exact Hin |].
  exact (proj1 (registered_names_resolve "fire_aspect" "Fire_Aspect" Hcv)
           FireAspect Hin).
Defined.

(* ===================================================================== *)
(** ** More on selection and generation                                   *)
(* ===================================================================== *)

Lemma pick_In (es : list Entry) (current r : Z) (e : Entry) :
  pick es current r = Some e -> In e es.
Proof.
  revert current. induction es as [| e0 es IH]; intros current H; simpl in H.
  - discriminate.
  - destruct (r <? wrap (current + Weight e0)).
    + inversion H; subst. left; reflexivity.
    + right. eapply IH. exact H.
Qed.

Lemma RollValue_upper (v : Value) (g g' : Source) (x : Z) :
  inRange (Min v) -> inRange (Max v) ->
  RollValue v g = Some (x, g') -> x <= Z.max (Min v) (Max v).
Proof.
  intros Hmin Hmax H. unfold RollValue in H.
  destruct (Z.leb_spec (Max v) (Min v)).
  - inversion H; subst. lia.
  - unfold bind in H.
    destruct (Z_lt_le_dec (Max v - Min v) maxInt) as [Hw | Hw].
    + rewrite RollValue_width in H by assumption.
      rewrite Intn_positive in H by lia. inversion H; subst; clear H.
      pose proof (Z.mod_pos_bound (raw g (pos g)) (Max v - Min v + 1)) as B.
      rewrite wrap_inRange by (unfold inRange, minInt, maxInt in *; lia).
      lia.
    + rewrite Intn_nonpositive in H by (apply RollValue_too_wide; assumption).
      discriminate H.
Qed.

Section MoreGeneration.

Context {L : ItemLibrary}.

Lemma produce_true (e : Entry) (g g' : Source) (s : Stack) :
  produce e g = Some ((s, true), g') ->
  Type_ e = "item" /\
  exists it count g1,
    ItemByName (String.append "minecraft:" (TrimPrefix (Name e) "minecraft:")) 0
      = Some it /\
    countLoop (Functions e) 1 g = Some (count, g1) /\
    applyLoop (Functions e) (NewStack it count) g1 = Some (s, g').
Proof.
  unfold produce.
  destruct (String.eqb_spec (Type_ e) "item") as [Hty | Hty]; cbn [negb];
    [| intros H; inversion H].
  cbv zeta.
  destruct (ItemByName (String.append "minecraft:" (TrimPrefix (Name e) "minecraft:")) 0)
    as [it |]; [| intros H; inversion H].
  unfold bind.
  destruct (countLoop (Functions e) 1 g) as [[count g1] |] eqn:Ec;
    [| discriminate].
  destruct (applyLoop (Functions e) (NewStack it count) g1) as [[s' g2] |] eqn:Ea;
    [| discriminate].
  intros H. inversion H; subst. split; [exact Hty |].
  exists it, count, g1. repeat split; assumption.
Qed.

(** X8.  A roll that returns a stack with [ok = true] made one draw for
    the selection and stopped at an entry of the pool whose type is
    "item" and whose name, without and then again with the namespace,
    the item registry resolves; the stack is what that entry's two loops
    over its functions make of the resolved item. *)
Theorem rollEntry_ok_sound (p : Pool) (g g' : Source) (s : Stack) :
  rollEntry p g = Some ((s, true), g') ->
  exists e it count g0 g1,
    In e (Entries p) /\ Type_ e = "item" /\
    ItemByName (String.append "minecraft:" (TrimPrefix (Name e) "minecraft:")) 0
      = Some it /\
    pos g0 = S (pos g) /\
    countLoop (Functions e) 1 g0 = Some (count, g1) /\
    applyLoop (Functions e) (NewStack it count) g1 = Some (s, g').
Proof.
  rewrite rollEntry_unfold.
  destruct (sumWeights (Entries p) 0 <=? 0); [intros H; inversion H |].
  destruct (Intn (sumWeights (Entries p) 0) g) as [[r g0] |] eqn:HI;
    [| discriminate].
  rewrite walk_pick.
  destruct (pick (Entries p) 0 r) as [e |] eqn:Hp; [| intros H; inversion H].
  intros H. apply produce_true in H. destruct H as (Hty & it & count & g1 & Hit & Hc & Ha).
  exists e, it, count, g0, g1.
  split; [eapply pick_In; exact Hp |]. split; [exact Hty |].
  split; [exact Hit |]. split; [exact (proj2 (Intn_bounds _ _ _ _ HI)) |].
  split; assumption.
Qed.

Lemma weightSum_positive (es : list Entry) :
  Forall (fun e => 1 <= Weight e) es -> 0 <= weightSum es.
Proof. induction 1 as [| e es He _ IH]; simpl; lia. Qed.

Lemma walk_interval (es1 es2 : list Entry) (e : Entry) (current r : Z)
    (g : Source) :
  Forall (fun e => 1 <= Weight e) (es1 ++ e :: es2) ->
  0 <= current ->
  current + weightSum (es1 ++ e :: es2) <= maxInt ->
  current + weightSum es1 <= r < current + weightSum es1 + Weight e ->
  walk (es1 ++ e :: es2) current r g = produce e g.
Proof.
  revert current. induction es1 as [| e1 es1 IH]; intros current Hall Hc Hmax Hr.
  - cbn [app walk]. cbn [app] in Hall, Hmax. simpl in Hr.
    inversion Hall as [| ? ? He Hes2]; subst.
    pose proof (weightSum_positive es2 Hes2).
    change (weightSum (e :: es2)) with (Weight e + weightSum es2) in Hmax.
    rewrite wrap_inRange by (unfold inRange, minInt, maxInt in *; lia).
    destruct (Z.ltb_spec r (current + Weight e)); [reflexivity | lia].
  - cbn [app walk]. cbn [app] in Hall, Hmax.
    inversion Hall as [| ? ? He1 Hrest]; subst.
    pose proof (weightSum_positive _ Hrest).
    assert (0 <= weightSum es1)
      by (apply weightSum_positive; apply Forall_app in Hrest; tauto).
    change (weightSum (e1 :: es1 ++ e :: es2))
      with (Weight e1 + weightSum (es1 ++ e :: es2)) in Hmax.
    change (weightSum (e1 :: es1)) with (Weight e1 + weightSum es1) in Hr.
    rewrite wrap_inRange by (unfold inRange, minInt, maxInt in *; lia).
    destruct (Z.ltb_spec r (current + Weight e1)); [lia |].
    apply IH; try assumption; lia.
Qed.

(** X9.  With weights of at least 1 whose sum is an [int], the walk
    over the entries stops at the entry [e] exactly for the draws from
    the sum of the weights before it up to, but not including, that sum
    plus its own weight: [Weight e] draws out of the total, so entries
    are reached in proportion to their weights. *)
Theorem walk_stops_by_weight (es1 es2 : list Entry) (e : Entry) (r : Z)
    (g : Source) :
  Forall (fun e => 1 <= Weight e) (es1 ++ e :: es2) ->
  weightSum (es1 ++ e :: es2) <= maxInt ->
  sumWeights (es1 ++ e :: es2) 0 = weightSum (es1 ++ e :: es2) /\
  (weightSum es1 <= r < weightSum es1 + Weight e ->
   walk (es1 ++ e :: es2) 0 r g = produce e g).
Proof.
  intros Hall Hmax. split.
  - rewrite sumWeights_counted by apply inRange_0.
    assert (E : sumCounted (es1 ++ e :: es2) = weightSum (es1 ++ e :: es2)).
    { clear Hmax. induction Hall as [| x l Hx _ IH]; simpl; [reflexivity |].
      rewrite IH. unfold countedWeight.
      destruct (Z.eqb_spec (Weight x) 0); [lia | reflexivity]. }
    rewrite E. apply wrap_inRange.
    pose proof (weightSum_positive _ Hall).
    unfold inRange, minInt, maxInt in *. lia.
  - intros Hr. apply walk_interval; try assumption; lia.
Qed.

Lemma rollLoop_length (p : Pool) (n : nat) (g g' : Source) (out : list Stack) :
  rollLoop p n [] g = Some (out, g') -> (List.length out <= n)%nat.
Proof.
  revert g out. induction n as [| n IH]; intros g out H; cbn [rollLoop] in H.
  - inversion H; subst. simpl. lia.
  - unfold bind in H. destruct (rollEntry p g) as [[[s ok] g1] |]; [| discriminate].
    rewrite rollLoop_after in H.
    destruct (rollLoop p n [] g1) as [[out1 g2] |] eqn:E; [| discriminate].
    cbn [after] in H. inversion H; subst; clear H.
    specialize (IH g1 out1 E). rewrite length_app.
    destruct ok; simpl; lia.
Qed.

Lemma generatePool_length (p : Pool) (g g' : Source) (out : list Stack) :
  inRange (Min (Rolls p)) -> inRange (Max (Rolls p)) ->
  generatePool p [] g = Some (out, g') -> (List.length out <= rollsBound p)%nat.
Proof.
  intros Hmin Hmax H. unfold generatePool, bind in H.
  destruct (RollValue (Rolls p) g) as [[rolls g1] |] eqn:E; [| discriminate].
  apply rollLoop_length in H.
  pose proof (RollValue_upper _ _ _ _ Hmin Hmax E).
  unfold rollsBound. lia.
Qed.

(** X10.  Generation only appends.  A pool leaves the stacks collected
    so far in place and adds at most as many as the larger bound of its
    roll count (none when that is not positive), and the output of
    [Generate] is no longer than the sum of these bounds over the pools. *)
Theorem generation_is_bounded (t : LootTable) :
  Forall (fun p => inRange (Min (Rolls p)) /\ inRange (Max (Rolls p))) (Pools t) ->
  (forall p stacks g out g',
     In p (Pools t) ->
     generatePool p stacks g = Some (out, g') ->
     exists added, out = stacks ++ added /\
                   (List.length added <= rollsBound p)%nat) /\
  (forall g out g',
     LootTable_Generate t g = Some (out, g') ->
     (List.length out <= rollsBoundAll (Pools t))%nat).
Proof.
  intros Hall. split.
  - intros p stacks g out g' Hin H.
    rewrite generatePool_after in H.
    destruct (generatePool p [] g) as [[added g1] |] eqn:E; [| discriminate].
    cbn [after] in H. inversion H; subst; clear H.
    exists added. split; [reflexivity |].
    pose proof (proj1 (Forall_forall _ _) Hall p Hin) as [Hmin Hmax].
    eapply generatePool_length; eassumption.
  - unfold LootTable_Generate. induction Hall as [| p ps [Hmin Hmax] _ IH];
      intros g out g' H; cbn [generatePools] in H.
    + inversion H; subst. simpl. lia.
    + unfold bind in H.
      destruct (generatePool p [] g) as [[out1 g1] |] eqn:E; [| discriminate].
      rewrite generatePools_after in H.
      destruct (generatePools ps [] g1) as [[out2 g2] |] eqn:E2; [| discriminate].
      cbn [after] in H. inversion H; subst; clear H.
      pose proof (generatePool_length p g g1 out1 Hmin Hmax E).
      specialize (IH _ _ _ E2).
      rewrite length_app. cbn [rollsBoundAll fold_right].
      change (fold_right (fun p acc => (rollsBound p + acc)%nat) 0%nat ps)
        with (rollsBoundAll ps). lia.
Qed.

End MoreGeneration.

(** X11.  A range written as a bare integer rolls to that integer on
    every source, without a draw; and a pool whose roll count is decoded
    into a fresh range from data that is neither an integer nor an
    object makes no roll at all: it adds nothing and draws nothing. *)
Theorem parsed_range_rolls {L : ItemLibrary} {D : Loader} (data : string) :
  (forall v i g,
     unmarshalInt data = Some i ->
     RollValue (fst (Value_UnmarshalJSON v data)) g = Some (i, g)) /\
  (forall es stacks g,
     unmarshalInt data = None -> unmarshalMinMax data = None ->
     generatePool (mkPool (fst (Value_UnmarshalJSON zeroValue data)) es) stacks g
     = Some (stacks, g)).
Proof.
  split.
  - intros v i g Hi. unfold Value_UnmarshalJSON. rewrite Hi.
    apply RollValue_fixed. simpl. lia.
  - intros es stacks g Hi Hm. unfold Value_UnmarshalJSON. rewrite Hi, Hm.
    unfold generatePool, bind. cbn [Rolls fst].
    rewrite RollValue_fixed by (simpl; lia). reflexivity.
Qed.

Lemma rollEntry_ok_sound_witness :
  let p := mkPool (mkValue 1 1) [mkEntry "item" "minecraft:stick" 1 []] in
  let g := Fake.counting 0 in
  let g' := mkSource (raw g) 1 [1] in
  let s := Fake.mkStack Fake.Stick 1 [] in
  rollEntry p g = Some ((s, true), g') /\
  exists e it count g0 g1,
    In e (Entries p) /\ Type_ e = "item" /\
    ItemByName (String.append "minecraft:" (TrimPrefix (Name e) "minecraft:")) 0
      = Some it /\
    pos g0 = S (pos g) /\
    countLoop (Functions e) 1 g0 = Some (count, g1) /\
    applyLoop (Functions e) (NewStack it count) g1 = Some (s, g').
Proof.
  cbv zeta. split; [reflexivity |].
  exact (rollEntry_ok_sound
           (mkPool (mkValue 1 1) [mkEntry "item" "minecraft:stick" 1 []])
           (Fake.counting 0) _ (Fake.mkStack Fake.Stick 1 []) eq_refl).
Defined.

Lemma walk_stops_by_weight_witness :
  let a := mkEntry "item" "stick" 1 [] in
  let b := mkEntry "item" "diamond_sword" 2 [] in
  let c := mkEntry "item" "potion" 1 [] in
  Forall (fun e => 1 <= Weight e) ([a] ++ b :: [c]) /\
  weightSum ([a] ++ b :: [c]) <= maxInt /\
  weightSum [a] <= 2 < weightSum [a] + Weight b /\
  walk ([a] ++ b :: [c]) 0 2 (Fake.counting 0) = produce b (Fake.counting 0).
Proof.
  cbv zeta.
  assert (H1 : Forall (fun e => 1 <= Weight e)
                 ([mkEntry "item" "stick" 1 []]
                  ++ mkEntry "item" "diamond_sword" 2 []
                  :: [mkEntry "item" "potion" 1 []]))
    by (simpl; repeat constructor; simpl; lia).
  assert (H2 : weightSum ([mkEntry "item" "stick" 1 []]
                  ++ mkEntry "item" "diamond_sword" 2 []
                  :: [mkEntry "item" "potion" 1 []]) <= maxInt)
    by (unfold maxInt; simpl; lia).
  assert (H3 : weightSum [mkEntry "item" "stick" 1 []] <= 2
               < weightSum [mkEntry "item" "stick" 1 []]
                 + Weight (mkEntry "item" "diamond_sword" 2 []))
    by (simpl; lia).
  split; [exact H1 |]. split; [exact H2 |]. split; [exact H3 |].
  exact (proj2 (walk_stops_by_weight _ _ _ 2 (Fake.counting 0) H1 H2) H3).
Defined.

Lemma generation_is_bounded_witness :
  let t := mkLootTable [mkPool (mkValue 1 3) [mkEntry "item" "stick" 1 []]] in
  let g := Fake.counting 1 in
  let out := [Fake.mkStack Fake.Stick 1 []; Fake.mkStack Fake.Stick 1 []] in
  Forall (fun p => inRange (Min (Rolls p)) /\ inRange (Max (Rolls p))) (Pools t) /\
  LootTable_Generate t g = Some (out, mkSource (raw g) 3 [3; 1; 1]) /\
  (List.length out <= rollsBoundAll (Pools t))%nat.
Proof.
  cbv zeta.
  assert (H : Forall (fun p => inRange (Min (Rolls p)) /\ inRange (Max (Rolls p)))
                (Pools (mkLootTable
                   [mkPool (mkValue 1 3) [mkEntry "item" "stick" 1 []]]))).
  { simpl. constructor; [| constructor].
    unfold inRange, minInt, maxInt. simpl. lia. }
  split; [exact H |]. split; [reflexivity |].
  exact (proj2 (generation_is_bounded
                  (mkLootTable
                     [mkPool (mkValue 1 3) [mkEntry "item" "stick" 1 []]]) H)
           (Fake.counting 1) _ _ eq_refl).
Defined.

Lemma parsed_range_rolls_witness :
  unmarshalInt "3" = Some 3 /\
  RollValue (fst (Value_UnmarshalJSON zeroValue "3")) (Fake.counting 0)
  = Some (3, Fake.counting 0) /\
  unmarshalInt "many" = None /\ unmarshalMinMax "many" = None /\
  generatePool (mkPool (fst (Value_UnmarshalJSON zeroValue "many"))
                  [mkEntry "item" "stick" 1 []]) [] (Fake.counting 0)
  = Some ([], Fake.counting 0).
Proof.
  split; [reflexivity |].
  split; [exact (proj1 (@parsed_range_rolls Fake.library Fake.loader "3")
                   zeroValue 3 (Fake.counting 0) eq_refl) |].
  split; [reflexivity |]. split; [reflexivity |].
  exact (proj2 (@parsed_range_rolls Fake.library Fake.loader "many")
           [mkEntry "item" "stick" 1 []] [] (Fake.counting 0) eq_refl eq_refl).
Defined.

(* ===================================================================== *)
(** ** Glow lichen                                                        *)
(* ===================================================================== *)


Lemma land_pow2 (x k : Z) :
  0 <= k -> Z.land x (2 ^ k) = if Z.testbit x k then 2 ^ k else 0.
Proof.
  intros Hk. apply Z.bits_inj'. intros n Hn.
  rewrite Z.land_spec, Z.pow2_bits_eqb by assumption.
  destruct (Z.eqb_spec k n) as [E | E].
  - subst n. destruct (Z.testbit x k) eqn:T.
    + rewrite Z.pow2_bits_true by assumption. reflexivity.
    + rewrite Z.bits_0. reflexivity.
  - rewrite Bool.andb_false_r. destruct (Z.testbit x k).
    + rewrite Z.pow2_bits_false by assumption. reflexivity.
    + rewrite Z.bits_0. reflexivity.
Qed.

(** X13.  Decoding keeps the six low bits and nothing else: encoding the
    lichen decoded from [bits] gives [bits & 63]. *)
Theorem Lichen_nbt_keeps_six_bits (g0 : Lichen.GlowLichen) (bits : Z) :
  exists g,
    Lichen.DecodeNBT g0 [("multi_face_direction_bits", AInt32 bits)] = Some g /\
    Lichen.nbtBits g = Z.land bits 63.
Proof.
  eexists. split; [reflexivity |].
  change 63 with (Z.lor (Z.lor (Z.lor (Z.lor (Z.lor 1 2) 4) 8) 16) 32).
  rewrite !Z.land_lor_distr_r.
  unfold Lichen.nbtBits. cbn [Lichen.Down Lichen.Up Lichen.North Lichen.South
                              Lichen.West Lichen.East].
  change 1 with (2 ^ 0). change 2 with (2 ^ 1). change 4 with (2 ^ 2).
  change 8 with (2 ^ 3). change 16 with (2 ^ 4). change 32 with (2 ^ 5).
  rewrite !land_pow2 by lia.
  destruct (Z.testbit bits 0), (Z.testbit bits 1), (Z.testbit bits 2),
    (Z.testbit bits 3), (Z.testbit bits 4), (Z.testbit bits 5); reflexivity.
Qed.

(** X14.  The registered states are the 64 lichens, each at the index
    that [EncodeBlock] writes for it: the state at index [blockBits g]
    is [g], so two lichens with the same bits are the same lichen. *)
Theorem Lichen_states_by_block_bits (g g' : Lichen.GlowLichen) :
  nth_error Lichen.allGlowLichens (Z.to_nat (Lichen.blockBits g)) = Some g /\
  0 <= Lichen.blockBits g < 64 /\
  List.length Lichen.allGlowLichens = 64%nat /\
  (Lichen.blockBits g = Lichen.blockBits g' -> g = g').
Proof.
  assert (H : forall x,
            nth_error Lichen.allGlowLichens (Z.to_nat (Lichen.blockBits x))
            = Some x)
    by (intros [[] [] [] [] [] []]; reflexivity).
  split; [apply H |]. split; [| split].
  - destruct g as [[] [] [] [] [] []]; vm_compute; split; congruence.
  - reflexivity.
  - intros E. pose proof (H g) as Hg. rewrite E, H in Hg.
    inversion Hg. reflexivity.
Qed.

(** X15.  [WithFace] attaches the face it is given and touches no other:
    afterwards the lichen has that face, every other face is as before,
    doing it twice or in the other order changes nothing, and a face
    that is already there, or a value that is no face, leaves the lichen
    as it is. *)
Theorem Lichen_WithFace_attaches (g : Lichen.GlowLichen) (f f' : Face) :
  (f <> FaceOther -> Lichen.hasFace (Lichen.WithFace g f) f = true) /\
  (f' <> f -> Lichen.hasFace (Lichen.WithFace g f) f' = Lichen.hasFace g f') /\
  Lichen.WithFace (Lichen.WithFace g f) f = Lichen.WithFace g f /\
  Lichen.WithFace (Lichen.WithFace g f) f'
  = Lichen.WithFace (Lichen.WithFace g f') f /\
  (Lichen.hasFace g f = true -> Lichen.WithFace g f = g) /\
  Lichen.WithFace g FaceOther = g.
Proof.
  split; [| split; [| split; [| split; [| split]]]].
  - destruct f; intros H; try reflexivity. contradiction.
  - destruct f, f'; intros H; try reflexivity; contradiction.
  - destruct f; reflexivity.
  - destruct f, f'; reflexivity.
  - destruct g, f; simpl; intros H; subst; reflexivity.
  - reflexivity.
Qed.

(** X16.  Broken with a tool that carries silk touch, a lichen drops one
    stack whose count is the number of faces it is attached to, between
    0 and 6; without silk touch among the enchantments it drops nothing. *)
Theorem Lichen_silk_touch_drops {E : Type} (isSilkTouch : E -> bool)
    (g : Lichen.GlowLichen) (enchantments : list E) :
  Lichen.breakDrops isSilkTouch g enchantments
  = (if existsb isSilkTouch enchantments
     then Some (Lichen.faceCount g) else None) /\
  Lichen.faceCount g
  = Z.of_nat (List.length
                (filter (Lichen.hasFace g)
                   [FaceDown; FaceUp; FaceNorth; FaceSouth; FaceWest; FaceEast])) /\
  0 <= Lichen.faceCount g <= 6.
Proof.
  split; [| split].
  - induction enchantments as [| ench rest IH]; simpl; [reflexivity |].
    destruct (isSilkTouch ench); [reflexivity | exact IH].
  - destruct g as [[] [] [] [] [] []]; reflexivity.
  - destruct g as [[] [] [] [] [] []]; vm_compute; split; congruence.
Qed.

Lemma checkSupport_eq (supported : Face -> bool) (face : Face)
    (attached changed : bool) :
  Lichen.checkSupport supported face attached changed
  = ((attached && supported face)%bool,
     (changed || (attached && negb (supported face)))%bool).
Proof.
  unfold Lichen.checkSupport.
  destruct attached, (supported face), changed; reflexivity.
Qed.

(** X17.  On a neighbour update a lichen keeps exactly the faces whose
    support is still solid.  It is left untouched when every attached
    face is supported, broken when none is, and otherwise replaced by
    the lichen with the supported faces, of which there is at least one
    and which lacks at least one face of the old one. *)
Theorem Lichen_update_keeps_supported_faces (supported : Face -> bool)
    (g : Lichen.GlowLichen) :
  match Lichen.NeighbourUpdateTick supported g with
  | Lichen.Untouched =>
      forall f, Lichen.hasFace g f = true -> supported f = true
  | Lichen.Broken =>
      (exists f, Lichen.hasFace g f = true) /\
      (forall f, Lichen.hasFace g f = true -> supported f = false)
  | Lichen.Replaced g' =>
      (forall f, Lichen.hasFace g' f
                 = (Lichen.hasFace g f && supported f)%bool) /\
      (exists f, Lichen.hasFace g' f = true) /\
      (exists f, Lichen.hasFace g f = true /\ supported f = false)
  end.
Proof.
  unfold Lichen.NeighbourUpdateTick. rewrite !checkSupport_eq.
  destruct g as [d u n s w e]. cbn [Lichen.Down Lichen.Up Lichen.North
                                     Lichen.South Lichen.West Lichen.East].
  destruct d, u, n, s, w, e;
    destruct (supported FaceDown) eqn:Sd, (supported FaceUp) eqn:Su,
      (supported FaceNorth) eqn:Sn, (supported FaceSouth) eqn:Ss,
      (supported FaceWest) eqn:Sw, (supported FaceEast) eqn:Se;
    cbn;
    repeat match goal with
           | |- _ /\ _ => split
           | |- forall f : Face, _ => intros [] ; cbn; try congruence;
                                      try rewrite Bool.andb_false_l; auto
           | |- exists f : Face, _ = true /\ _ = false =>
               first [ exists FaceDown; split; [reflexivity | assumption]
                     | exists FaceUp; split; [reflexivity | assumption]
                     | exists FaceNorth; split; [reflexivity | assumption]
                     | exists FaceSouth; split; [reflexivity | assumption]
                     | exists FaceWest; split; [reflexivity | assumption]
                     | exists FaceEast; split; [reflexivity | assumption] ]
           | |- exists f : Face, _ = true =>
               first [ exists FaceDown; reflexivity | exists FaceUp; reflexivity
                     | exists FaceNorth; reflexivity | exists FaceSouth; reflexivity
                     | exists FaceWest; reflexivity | exists FaceEast; reflexivity ]
           end.
Qed.

(** X18.  A merge succeeds exactly on a face the lichen does not have
    yet and whose support is solid, and then sets the lichen with that
    one face added; [attemptMergeAny] does so for the first such face of
    the list it walks, and fails when the list has none. *)
Theorem Lichen_merge_adds_free_supported_face (supported : Face -> bool)
    (faces : list Face) (existing : Lichen.GlowLichen) :
  (forall face,
     Lichen.attemptMerge supported existing face
     = if (negb (Lichen.hasFace existing face) && supported face
           && match face with FaceOther => false | _ => true end)%bool
       then Some (Lichen.WithFace existing face) else None) /\
  Lichen.attemptMergeAny supported faces existing
  = match find (fun f => (negb (Lichen.hasFace existing f) && supported f
                          && match f with FaceOther => false | _ => true end)%bool)
                faces with
    | Some f => Some (Lichen.WithFace existing f)
    | None => None
    end.
Proof.
  assert (Hone : forall face,
     Lichen.attemptMerge supported existing face
     = if (negb (Lichen.hasFace existing face) && supported face
           && match face with FaceOther => false | _ => true end)%bool
       then Some (Lichen.WithFace existing face) else None).
  { intros face. unfold Lichen.attemptMerge.
    destruct existing as [[] [] [] [] [] []], face;
      cbn;
      try match goal with
          | |- context [supported ?f] => destruct (supported f)
          end; reflexivity. }
  split; [exact Hone |].
  induction faces as [| f rest IH]; cbn [Lichen.attemptMergeAny find];
    [reflexivity |].
  rewrite Hone.
  destruct (Lichen.hasFace existing f); cbn [negb andb]; [exact IH |].
  destruct (supported f); cbn [andb]; [| exact IH].
  destruct f; try reflexivity. exact IH.
Qed.

(* ===================================================================== *)
(** ** Snow layers                                                        *)
(* ===================================================================== *)






(** X21.  The registered snow layers are the sixteen layers of height 0
    to 7, covered or not: a layer is registered exactly when its height
    lies in that range. *)
Theorem Snow_registered_heights (s : Snow.SnowLayer) :
  (In s Snow.allSnowLayers <-> 0 <= Snow.Height s <= 7) /\
  List.length Snow.allSnowLayers = 16%nat.
Proof.
  split; [| reflexivity]. split.
  - intros H. vm_compute in H.
    repeat (destruct H as [H | H]; [subst s; simpl; lia |]). contradiction.
  - intros H. destruct s as [h c]. simpl in H.
    assert (E : h = 0 \/ h = 1 \/ h = 2 \/ h = 3 \/ h = 4 \/ h = 5 \/ h = 6 \/ h = 7)
      by lia.
    destruct c;
      repeat (destruct E as [E | E]; [subst h; vm_compute; tauto |]);
      subst h; vm_compute; tauto.
Qed.

Section SnowInWorld.

Variable Pos : Type.
Variable layerAt : Pos -> option Snow.SnowLayer.
Variable firstReplaceable : Pos -> Face -> Pos * Face * bool.
Variable solidBelow : Pos -> bool.

(** X22.  Used on a position that holds a snow layer, the item raises
    that layer by one and keeps its covered flag, or turns it into a
    snow block once it is at height 7 or more; the layer in hand is not
    looked at.  Whatever is placed, if the layers of the world and the
    layer in hand have heights from 0 to 7, so has a layer that is
    placed. *)
Theorem Snow_use_keeps_heights (s : Snow.SnowLayer) (pos : Pos) (face : Face) :
  (forall p l, layerAt p = Some l -> 0 <= Snow.Height l <= 7) ->
  0 <= Snow.Height s <= 7 ->
  (forall existing, layerAt pos = Some existing ->
     Snow.UseOnBlock Pos layerAt firstReplaceable solidBelow s pos face
     = Some (pos,
             if Snow.Height existing <? 7
             then Snow.PlaceLayer
                    (Snow.mkSnowLayer (Snow.Height existing + 1)
                       (Snow.Covered existing))
             else Snow.PlaceSnow)) /\
  (forall pos' l,
     Snow.UseOnBlock Pos layerAt firstReplaceable solidBelow s pos face
     = Some (pos', Snow.PlaceLayer l) ->
     0 <= Snow.Height l <= 7).
Proof.
  intros Hworld Hs.
  assert (Hraise : forall existing,
            0 <= Snow.Height existing <= 7 ->
            Snow.raise existing
            = if Snow.Height existing <? 7
              then Snow.PlaceLayer
                     (Snow.mkSnowLayer (Snow.Height existing + 1)
                        (Snow.Covered existing))
              else Snow.PlaceSnow).
  { intros existing H. unfold Snow.raise.
    rewrite wrap_inRange by (unfold inRange, minInt, maxInt; lia). reflexivity. }
  assert (Hplaced : forall existing l,
            0 <= Snow.Height existing <= 7 ->
            Snow.raise existing = Snow.PlaceLayer l -> 0 <= Snow.Height l <= 7).
  { intros existing l H E. rewrite Hraise in E by assumption.
    destruct (Z.ltb_spec (Snow.Height existing) 7); [| discriminate].
    inversion E; subst; simpl. lia. }
  split.
  - intros existing E. unfold Snow.UseOnBlock. rewrite E.
    rewrite Hraise by (eapply Hworld; exact E). reflexivity.
  - intros pos' l. unfold Snow.UseOnBlock.
    destruct (layerAt pos) as [existing |] eqn:E.
    + intros H. inversion H; subst.
      eapply Hplaced; [eapply Hworld; exact E | eassumption].
    + destruct (firstReplaceable pos face) as [[pos1 face1] used].
      destruct used; cbn [negb]; [| discriminate].
      destruct (layerAt pos1) as [existing |] eqn:E1.
      * intros H. inversion H; subst.
        eapply Hplaced; [eapply Hworld; exact E1 | eassumption].
      * destruct (solidBelow pos1); cbn [negb]; [| discriminate].
        intros H. inversion H; subst. exact Hs.
Qed.

End SnowInWorld.

(** X23.  A snow layer that rests on another snow layer is broken by a
    neighbour update unless the layer below is full: the model of a
    layer is solid on a face other than its bottom one only at height 7. *)
Theorem Snow_on_snow_needs_full_layer (below : Snow.SnowLayer) (top : Face) :
  top <> FaceDown ->
  Snow.NeighbourUpdateTick (Snow.FaceSolid (Snow.Height below) top)
  = negb (Snow.Height below =? 7).
Proof.
  intros H. unfold Snow.NeighbourUpdateTick, Snow.FaceSolid.
  destruct (Snow.Height below =? 7); [reflexivity |].
  destruct top; try reflexivity. contradiction.
Qed.

Lemma Snow_on_snow_needs_full_layer_witness :
  FaceUp <> FaceDown /\
  Snow.NeighbourUpdateTick
    (Snow.FaceSolid (Snow.Height (Snow.mkSnowLayer 3 false)) FaceUp)
  = negb (Snow.Height (Snow.mkSnowLayer 3 false) =? 7).
Proof.
  assert (H : FaceUp <> FaceDown) by (intros E; discriminate E).
  split; [exact H |].
  exact (Snow_on_snow_needs_full_layer (Snow.mkSnowLayer 3 false) FaceUp H).
Defined.

(* ===================================================================== *)
(** ** The block properties at work                                       *)
(* ===================================================================== *)


Lemma Lichen_states_by_block_bits_witness :
  let g := Lichen.mkGlowLichen true false true false false false in
  Lichen.blockBits g = Lichen.blockBits g /\
  nth_error Lichen.allGlowLichens 17 = Some g /\ g = g.
Proof.
  cbv zeta. split; [reflexivity |].
  pose proof (Lichen_states_by_block_bits
                (Lichen.mkGlowLichen true false true false false false)
                (Lichen.mkGlowLichen true false true false false false))
    as (Hnth & _ & _ & Hinj).
  split; [exact Hnth | exact (Hinj eq_refl)].
Defined.

Lemma Lichen_WithFace_attaches_witness :
  let g := Lichen.mkGlowLichen true false false false false false in
  FaceNorth <> FaceOther /\ FaceDown <> FaceNorth /\
  Lichen.hasFace (Lichen.WithFace g FaceNorth) FaceNorth = true /\
  Lichen.hasFace (Lichen.WithFace g FaceNorth) FaceDown = Lichen.hasFace g FaceDown.
Proof.
  cbv zeta.
  assert (H1 : FaceNorth <> FaceOther) by (intros E; discriminate E).
  assert (H2 : FaceDown <> FaceNorth) by (intros E; discriminate E).
  pose proof (Lichen_WithFace_attaches
                (Lichen.mkGlowLichen true false false false false false)
                FaceNorth FaceDown) as (Ha & Hb & _).
  split; [exact H1 |]. split; [exact H2 |].
  split; [exact (Ha H1) | exact (Hb H2)].
Defined.

Lemma Lichen_update_keeps_supported_faces_witness :
  let supported := fun f => match f with FaceDown => true | _ => false end in
  let g := Lichen.mkGlowLichen true false true false false false in
  Lichen.NeighbourUpdateTick supported g
  = Lichen.Replaced (Lichen.mkGlowLichen true false false false false false) /\
  Lichen.hasFace g FaceNorth = true /\ supported FaceNorth = false /\
  match Lichen.NeighbourUpdateTick supported g with
  | Lichen.Untouched =>
      forall f, Lichen.hasFace g f = true -> supported f = true
  | Lichen.Broken =>
      (exists f, Lichen.hasFace g f = true) /\
      (forall f, Lichen.hasFace g f = true -> supported f = false)
  | Lichen.Replaced g' =>
      (forall f, Lichen.hasFace g' f
                 = (Lichen.hasFace g f && supported f)%bool) /\
      (exists f, Lichen.hasFace g' f = true) /\
      (exists f, Lichen.hasFace g f = true /\ supported f = false)
  end.
Proof.
  cbv zeta. split; [reflexivity |]. split; [reflexivity |].
  split; [reflexivity |].
  exact (Lichen_update_keeps_supported_faces
           (fun f => match f with FaceDown => true | _ => false end)
           (Lichen.mkGlowLichen true false true false false false)).
Defined.

Lemma Snow_registered_heights_witness :
  let s := Snow.mkSnowLayer 6 true in
  0 <= Snow.Height s <= 7 /\ In s Snow.allSnowLayers.
Proof.
  cbv zeta.
  assert (H : 0 <= Snow.Height (Snow.mkSnowLayer 6 true) <= 7) by (simpl; lia).
  split; [exact H |].
  exact (proj2 (proj1 (Snow_registered_heights (Snow.mkSnowLayer 6 true))) H).
Defined.

Lemma Snow_use_keeps_heights_witness :
  let layerAt := fun p : Z =>
    if p =? 0 then Some (Snow.mkSnowLayer 3 true) else None in
  let firstReplaceable := fun (p : Z) (f : Face) => (p + 1, f, true) in
  let solidBelow := fun p : Z => true in
  let s := Snow.mkSnowLayer 0 false in
  (forall p l, layerAt p = Some l -> 0 <= Snow.Height l <= 7) /\
  0 <= Snow.Height s <= 7 /\
  layerAt 0 = Some (Snow.mkSnowLayer 3 true) /\
  Snow.UseOnBlock Z layerAt firstReplaceable solidBelow s 0 FaceUp
  = Some (0, Snow.PlaceLayer (Snow.mkSnowLayer 4 true)).
Proof.
  cbv zeta.
  assert (Hworld : forall p l,
            (if p =? 0 then Some (Snow.mkSnowLayer 3 true) else None) = Some l ->
            0 <= Snow.Height l <= 7).
  { intros p l H. destruct (p =? 0); [| discriminate H].
    inversion H; subst. simpl. lia. }
  assert (Hs : 0 <= Snow.Height (Snow.mkSnowLayer 0 false) <= 7) by (simpl; lia).
  split; [exact Hworld |]. split; [exact Hs |]. split; [reflexivity |].
  exact (proj1 (Snow_use_keeps_heights Z
                  (fun p => if p =? 0 then Some (Snow.mkSnowLayer 3 true) else None)
                  (fun p f => (p + 1, f, true)) (fun _ => true)
                  (Snow.mkSnowLayer 0 false) 0 FaceUp Hworld Hs)
           (Snow.mkSnowLayer 3 true) eq_refl).
Defined.
